(** * Contract review pipeline ([contract_tool.py]): model and properties

    The development follows the layering of the program:

    - Python strings ([str.strip], [str.replace]) over lists of code points;
    - Python values as produced by [json.loads], with [json.loads] itself
      (the character-level state machine of the standard decoder) and
      [json.dumps];
    - [Agent.call_api] and the five agents, in a state-and-exception monad
      whose state is the log of observable events and the count of HTTP
      requests made so far; the remote API is an arbitrary function of the
      request;
    - [ContractProcessingThread.run], [ContractReviewApp.process_contract]
      and [ContractReviewApp.generate_combined_report].

    Resource limits of the interpreter (recursion depth, the limit on the
    number of digits of an integer literal) are not modelled. *)

From Stdlib Require Import List ZArith NArith Bool Lia String Ascii.
From Stdlib Require Import DecimalString.
Import ListNotations.

Abbreviation length := List.length.

(** ** Python strings *)

(** A Python [str] is a sequence of Unicode code points. *)
Definition pystr := list N.

(** UTF-8 decoding of the bytes of a literal of this file, so that the
    literals of the program can be written as they are in the source. *)
Fixpoint utf8_decode (pending : nat) (acc : N) (bs : list N) : pystr :=
  match bs with
  | [] => []
  | b :: bs' =>
      match pending with
      | O =>
          if (b <? 128)%N then b :: utf8_decode 0 0%N bs'
          else if (b <? 224)%N then utf8_decode 1 (N.land b 31) bs'
          else if (b <? 240)%N then utf8_decode 2 (N.land b 15) bs'
          else utf8_decode 3 (N.land b 7) bs'
      | S k =>
          let acc' := (acc * 64 + N.land b 63)%N in
          match k with
          | O => acc' :: utf8_decode 0 0%N bs'
          | S _ => utf8_decode k acc' bs'
          end
      end
  end.

Definition u (s : String.string) : pystr :=
  utf8_decode 0 0%N (map N_of_ascii (list_ascii_of_string s)).

Definition pystr_eqb (a b : pystr) : bool :=
  if list_eq_dec N.eq_dec a b then true else false.


(** [str.isspace] on one character: the code points CPython's
    [_PyUnicode_IsWhitespace] accepts. *)
Definition py_isspace (c : N) : bool :=
  ((9 <=? c) && (c <=? 13) || (28 <=? c) && (c <=? 32)
   || (c =? 133) || (c =? 160) || (c =? 5760)
   || (8192 <=? c) && (c <=? 8202)
   || (c =? 8232) || (c =? 8233) || (c =? 8239) || (c =? 8287)
   || (c =? 12288))%N.

Fixpoint lstrip (s : pystr) : pystr :=
  match s with
  | [] => []
  | c :: s' => if py_isspace c then lstrip s' else s
  end.

Definition rstrip (s : pystr) : pystr := rev (lstrip (rev s)).

(** [s.strip()] *)
Definition strip (s : pystr) : pystr := rstrip (lstrip s).

(** [s.startswith(p)] *)
Fixpoint startswith (p s : pystr) : bool :=
  match p, s with
  | [], _ => true
  | _ :: _, [] => false
  | a :: p', b :: s' => (a =? b)%N && startswith p' s'
  end.

(** [s.replace(old, new)]: the occurrences of [old] are found from left to
    right and do not overlap.  [skip] counts the characters of the
    occurrence being replaced that are still to be dropped. *)
Fixpoint replace_from (old new : pystr) (skip : nat) (s : pystr) : pystr :=
  match s with
  | [] => []
  | c :: s' =>
      match skip with
      | S k => replace_from old new k s'
      | O =>
          if startswith old s
          then new ++ replace_from old new (length old - 1) s'
          else c :: replace_from old new 0 s'
      end
  end.

Definition replace (old new s : pystr) : pystr :=
  match old with
  | [] => new ++ flat_map (fun c => c :: new) s
  | _ :: _ => replace_from old new 0 s
  end.

(** [p in s] *)
Fixpoint contains (p s : pystr) : bool :=
  startswith p s || match s with [] => false | _ :: s' => contains p s' end.

(** Decimal rendering of an integer, [str(n)]. *)
Definition str_of_Z (z : Z) : pystr :=
  u (NilZero.string_of_int (Z.to_int z)).

Definition BACKTICK : N := 96%N.
Definition FENCE_JSON : pystr := Eval cbv in u "```json".
Definition FENCE : pystr := Eval cbv in u "```".
Definition NL : N := 10%N.


(** ** Python values *)

(** The values [json.loads] produces.  A float keeps the text of its literal
    (CPython converts it to a binary64 number, so the model tells apart some
    floats that CPython identifies); a dict keeps its items in insertion
    order. *)
#[warnings="-register-all"]
Inductive pyval :=
| PNone
| PBool (b : bool)
| PInt (z : Z)
| PFloat (lit : pystr)
| PStr (s : pystr)
| PList (items : list pyval)
| PDict (items : list (pystr * pyval)).

Definition pydict := list (pystr * pyval).

(** [d.get(k)] *)
Fixpoint dict_get (d : pydict) (k : pystr) : option pyval :=
  match d with
  | [] => None
  | (k', v) :: d' => if pystr_eqb k k' then Some v else dict_get d' k
  end.

(** [d[k] = v]: an existing key keeps its place. *)
Fixpoint dict_set (d : pydict) (k : pystr) (v : pyval) : pydict :=
  match d with
  | [] => [(k, v)]
  | (k', v') :: d' =>
      if pystr_eqb k k' then (k', v) :: d' else (k', v') :: dict_set d' k v
  end.

(** ** Exceptions *)

Inductive exn_class :=
| KeyError | IndexError | TypeError | AttributeError
| JSONDecodeError | RequestException.

(** An exception with the text [str(e)] gives. *)
Record exn := Exn { exn_cls : exn_class; exn_str : pystr }.

(** ** [json.loads]

    The decoder reads the document from left to right; the model is its
    control state after each character.  [frame]s are the containers that
    are open, innermost first. *)

Definition is_json_ws (c : N) : bool :=
  ((c =? 32) || (c =? 9) || (c =? 10) || (c =? 13))%N.

Definition is_digit (c : N) : bool := ((48 <=? c) && (c <=? 57))%N.

Definition hex_value (c : N) : option N :=
  if is_digit c then Some (c - 48)%N
  else if ((97 <=? c) && (c <=? 102))%N then Some (c - 87)%N
  else if ((65 <=? c) && (c <=? 70))%N then Some (c - 55)%N
  else None.

Inductive frame :=
| FArr (items_rev : list pyval)
| FObj (pairs : pydict) (key : option pystr).

(** Where the decoder stands in a number: an optional minus sign, then 0 or
    a non-zero digit and digits, then optionally a dot and digits, then
    optionally e or E, an optional sign and digits. *)
Inductive numstate :=
| NMinus | NZero | NInt | NDot | NFrac | NE | NESign | NExp.

(** The literals that are matched character by character. *)
Inductive literal :=
| LNull | LTrue | LFalse | LNaN | LInfinity | LNegInfinity.

Definition literal_text (l : literal) : pystr :=
  Eval cbv in
  match l with
  | LNull => u "null"
  | LTrue => u "true"
  | LFalse => u "false"
  | LNaN => u "NaN"
  | LInfinity => u "Infinity"
  | LNegInfinity => u "-Infinity"
  end.

Inductive mode :=
| MValue (first : bool)
    (* a value is expected; [first]: just after '[', where ']' may follow *)
| MKey (first : bool)
    (* a key is expected; [first]: just after '{', where '}' may follow *)
| MColon
| MAfter
    (* a value of the open container is complete *)
| MStr (is_key : bool) (n : nat) (acc_rev : list (N * bool))
    (* in a string, [n] characters after its opening quote included; the
       flag of a character tells whether a \u escape produced it *)
| MEsc (is_key : bool) (n : nat) (acc_rev : list (N * bool))
| MHex (is_key : bool) (n : nat) (acc_rev : list (N * bool)) (k : nat) (h : N)
| MNum (ns : numstate) (lit_rev : pystr)
| MLit (l : literal) (n : nat).
    (* the first [n] characters of the literal are read *)

Inductive jstate :=
| JRun (stk : list frame) (m : mode)
| JDone (v : pyval)
    (* the document's value is complete *)
| JErr (msg : pystr) (back : nat) (after : nat).
    (* an error [back] characters before the offending one; [after]
       characters were fed since *)

(** A high surrogate and the low surrogate that follows it, both written as
    \u escapes, are one character. *)
Definition is_high (c : N) : bool := ((55296 <=? c) && (c <=? 56319))%N.
Definition is_low (c : N) : bool := ((56320 <=? c) && (c <=? 57343))%N.

Fixpoint join_surrogates (l : list (N * bool)) : pystr :=
  match l with
  | [] => []
  | (c, e) :: tl =>
      match tl with
      | (c2, e2) :: tl' =>
          if e && e2 && is_high c && is_low c2
          then (65536 + (c - 55296) * 1024 + (c2 - 56320))%N :: join_surrogates tl'
          else c :: join_surrogates tl
      | [] => [c]
      end
  end.

Fixpoint Z_of_digits (acc : Z) (s : pystr) : Z :=
  match s with
  | [] => acc
  | c :: s' => Z_of_digits (acc * 10 + (Z.of_N c - 48))%Z s'
  end.

(** [int(lit)] for a literal the number pattern matched. *)
Definition int_of_lit (lit : pystr) : Z :=
  match lit with
  | 45%N :: ds => (- Z_of_digits 0 ds)%Z
  | _ => Z_of_digits 0%Z lit
  end.

Definition literal_value (l : literal) : pyval :=
  match l with
  | LNull => PNone
  | LTrue => PBool true
  | LFalse => PBool false
  | LNaN => PFloat (u "NaN")
  | LInfinity => PFloat (u "Infinity")
  | LNegInfinity => PFloat (u "-Infinity")
  end.

Definition num_value (ns : numstate) (lit_rev : pystr) : pyval :=
  match ns with
  | NZero | NInt => PInt (int_of_lit (rev lit_rev))
  | _ => PFloat (rev lit_rev)
  end.

Definition EXPECTING_VALUE : pystr := Eval cbv in u "Expecting value".
Definition EXPECTING_COMMA : pystr := Eval cbv in u "Expecting ',' delimiter".
Definition EXPECTING_COLON : pystr := Eval cbv in u "Expecting ':' delimiter".
Definition EXPECTING_NAME : pystr :=
  Eval cbv in u "Expecting property name enclosed in double quotes".
Definition EXTRA_DATA : pystr := Eval cbv in u "Extra data".
Definition UNTERMINATED : pystr := Eval cbv in u "Unterminated string starting at".
Definition INVALID_CONTROL : pystr := Eval cbv in u "Invalid control character at".
Definition INVALID_ESCAPE : pystr := Eval cbv in u "Invalid \escape".
Definition INVALID_UESCAPE : pystr := Eval cbv in u "Invalid \uXXXX escape".

(** What cannot follow a complete value. *)
Definition bad_after (stk : list frame) (back : nat) : jstate :=
  match stk with
  | [] => JErr EXTRA_DATA back 0
  | _ :: _ => JErr EXPECTING_COMMA back 0
  end.

(** A complete value goes to the innermost open container. *)
Definition deliver (stk : list frame) (v : pyval) : jstate :=
  match stk with
  | [] => JDone v
  | FArr items :: stk' => JRun (FArr (v :: items) :: stk') MAfter
  | FObj pairs (Some k) :: stk' =>
      JRun (FObj (dict_set pairs k v) None :: stk') MAfter
  | FObj _ None :: _ => JErr EXPECTING_VALUE 0 0
  end.

(** The character after a complete value. *)
Definition step_after (st : jstate) (c : N) : jstate :=
  match st with
  | JDone v => if is_json_ws c then JDone v else JErr EXTRA_DATA 0 0
  | JRun (FArr items :: stk') MAfter =>
      if is_json_ws c then st
      else if (c =? 44)%N then JRun (FArr items :: stk') (MValue false)
      else if (c =? 93)%N then deliver stk' (PList (rev items))
      else JErr EXPECTING_COMMA 0 0
  | JRun (FObj pairs None :: stk') MAfter =>
      if is_json_ws c then st
      else if (c =? 44)%N then JRun (FObj pairs None :: stk') (MKey false)
      else if (c =? 125)%N then deliver stk' (PDict pairs)
      else JErr EXPECTING_COMMA 0 0
  | JErr msg back after => JErr msg back (S after)
  | JRun _ _ => JErr EXPECTING_COMMA 0 0
  end.

(** The first character of a value. *)
Definition start_value (stk : list frame) (first : bool) (c : N) : jstate :=
  if is_json_ws c then JRun stk (MValue first)
  else if (c =? 34)%N then JRun stk (MStr false 1 [])
  else if (c =? 123)%N then JRun (FObj [] None :: stk) (MKey true)
  else if (c =? 91)%N then JRun (FArr [] :: stk) (MValue true)
  else if (c =? 93)%N && first then
    match stk with
    | FArr items :: stk' => deliver stk' (PList (rev items))
    | _ => JErr EXPECTING_VALUE 0 0
    end
  else if (c =? 110)%N then JRun stk (MLit LNull 1)
  else if (c =? 116)%N then JRun stk (MLit LTrue 1)
  else if (c =? 102)%N then JRun stk (MLit LFalse 1)
  else if (c =? 78)%N then JRun stk (MLit LNaN 1)
  else if (c =? 73)%N then JRun stk (MLit LInfinity 1)
  else if (c =? 45)%N then JRun stk (MNum NMinus [c])
  else if (c =? 48)%N then JRun stk (MNum NZero [c])
  else if is_digit c then JRun stk (MNum NInt [c])
  else JErr EXPECTING_VALUE 0 0.

Definition start_key (stk : list frame) (first : bool) (c : N) : jstate :=
  if is_json_ws c then JRun stk (MKey first)
  else if (c =? 34)%N then JRun stk (MStr true 1 [])
  else if (c =? 125)%N && first then
    match stk with
    | FObj pairs None :: stk' => deliver stk' (PDict pairs)
    | _ => JErr EXPECTING_NAME 0 0
    end
  else JErr EXPECTING_NAME 0 0.

(** The closing quote of a string. *)
Definition end_string (stk : list frame) (is_key : bool) (s : pystr) : jstate :=
  if is_key then
    match stk with
    | FObj pairs None :: stk' => JRun (FObj pairs (Some s) :: stk') MColon
    | _ => JErr EXPECTING_NAME 0 0
    end
  else deliver stk (PStr s).

Definition unescape (c : N) : option N :=
  if ((c =? 34) || (c =? 92) || (c =? 47))%N then Some c
  else if (c =? 98)%N then Some 8%N
  else if (c =? 102)%N then Some 12%N
  else if (c =? 110)%N then Some 10%N
  else if (c =? 114)%N then Some 13%N
  else if (c =? 116)%N then Some 9%N
  else None.

Definition is_exp_char (c : N) : bool := ((c =? 101) || (c =? 69))%N.

Definition step_num (stk : list frame) (ns : numstate) (lit : pystr) (c : N)
  : jstate :=
  let continue ns' := JRun stk (MNum ns' (c :: lit)) in
  let complete := step_after (deliver stk (num_value ns lit)) c in
  match ns with
  | NMinus =>
      if (c =? 48)%N then continue NZero
      else if is_digit c then continue NInt
      else if (c =? 73)%N then JRun stk (MLit LNegInfinity 2)
      else JErr EXPECTING_VALUE 1 0
  | NZero =>
      if (c =? 46)%N then continue NDot
      else if is_exp_char c then continue NE
      else complete
  | NInt =>
      if is_digit c then continue NInt
      else if (c =? 46)%N then continue NDot
      else if is_exp_char c then continue NE
      else complete
  | NDot => if is_digit c then continue NFrac else bad_after stk 1
  | NFrac =>
      if is_digit c then continue NFrac
      else if is_exp_char c then continue NE
      else complete
  | NE =>
      if ((c =? 43) || (c =? 45))%N then continue NESign
      else if is_digit c then continue NExp
      else bad_after stk 1
  | NESign => if is_digit c then continue NExp else bad_after stk 2
  | NExp => if is_digit c then continue NExp else complete
  end.

Definition step (st : jstate) (c : N) : jstate :=
  match st with
  | JRun stk m =>
      match m with
      | MValue first => start_value stk first c
      | MKey first => start_key stk first c
      | MColon =>
          if is_json_ws c then st
          else if (c =? 58)%N then JRun stk (MValue false)
          else JErr EXPECTING_COLON 0 0
      | MAfter => step_after st c
      | MStr is_key n acc =>
          if (c =? 34)%N then end_string stk is_key (join_surrogates (rev acc))
          else if (c =? 92)%N then JRun stk (MEsc is_key (S n) acc)
          else if (c <? 32)%N then JErr INVALID_CONTROL 0 0
          else JRun stk (MStr is_key (S n) ((c, false) :: acc))
      | MEsc is_key n acc =>
          match unescape c with
          | Some x => JRun stk (MStr is_key (S n) ((x, false) :: acc))
          | None =>
              if (c =? 117)%N then JRun stk (MHex is_key (S n) acc 0 0%N)
              else JErr INVALID_ESCAPE 1 0
          end
      | MHex is_key n acc k h =>
          match hex_value c with
          | Some d =>
              let h' := (h * 16 + d)%N in
              if Nat.eqb k 3
              then JRun stk (MStr is_key (S n) ((h', true) :: acc))
              else JRun stk (MHex is_key (S n) acc (S k) h')
          | None => JErr INVALID_UESCAPE (S k) 0
          end
      | MNum ns lit => step_num stk ns lit c
      | MLit l n =>
          match nth_error (literal_text l) n with
          | Some r =>
              if (c =? r)%N then
                if Nat.eqb (S n) (length (literal_text l))
                then deliver stk (literal_value l)
                else JRun stk (MLit l (S n))
              else JErr EXPECTING_VALUE n 0
          | None => JErr EXPECTING_VALUE n 0
          end
      end
  | JDone _ | JErr _ _ _ => step_after st c
  end.

(** The end of the document: the value, or the message of the error and
    how far from the end of the document it is. *)
Definition finish (st : jstate) : (pystr * nat) + pyval :=
  match st with
  | JDone v => inr v
  | JErr msg back after => inl (msg, S (back + after))
  | JRun stk m =>
      match m with
      | MValue _ => inl (EXPECTING_VALUE, 0)
      | MKey _ => inl (EXPECTING_NAME, 0)
      | MColon => inl (EXPECTING_COLON, 0)
      | MAfter => inl (EXPECTING_COMMA, 0)
      | MStr _ n _ | MEsc _ n _ => inl (UNTERMINATED, n)
      | MHex _ _ _ k _ => inl (INVALID_UESCAPE, S k)
      | MLit _ n => inl (EXPECTING_VALUE, n)
      | MNum ns lit =>
          match ns with
          | NMinus => inl (EXPECTING_VALUE, 1)
          | NZero | NInt | NFrac | NExp =>
              match stk with
              | [] => inr (num_value ns lit)
              | _ :: _ => inl (EXPECTING_COMMA, 0)
              end
          | NDot | NE =>
              inl (match stk with [] => EXTRA_DATA | _ => EXPECTING_COMMA end, 1)
          | NESign =>
              inl (match stk with [] => EXTRA_DATA | _ => EXPECTING_COMMA end, 2)
          end
      end
  end.

Definition json_init : jstate := JRun [] (MValue false).

Definition json_feed (st : jstate) (s : pystr) : jstate := fold_left step s st.

Fixpoint count_newlines (s : pystr) : nat :=
  match s with
  | [] => 0
  | c :: s' => (if (c =? 10)%N then 1 else 0) + count_newlines s'
  end.

(** Characters after the last newline of [s], plus one. *)
Fixpoint column_of (col : nat) (s : pystr) : nat :=
  match s with
  | [] => col
  | c :: s' => column_of (if (c =? 10)%N then 1 else S col) s'
  end.

(** [str(e)] of a [JSONDecodeError(msg, doc, pos)]. *)
Definition decode_error (msg doc : pystr) (pos : nat) : exn :=
  let before := firstn pos doc in
  Exn JSONDecodeError
    (msg ++ u ": line " ++ str_of_Z (Z.of_nat (S (count_newlines before)))
         ++ u " column " ++ str_of_Z (Z.of_nat (column_of 1 before))
         ++ u " (char " ++ str_of_Z (Z.of_nat pos) ++ u ")").

Definition BOM : N := 65279%N.

(** [json.loads(doc)] for a [str] document. *)
Definition json_loads (doc : pystr) : exn + pyval :=
  if startswith [BOM] doc
  then inl (decode_error (u "Unexpected UTF-8 BOM (decode using utf-8-sig)") doc 0)
  else
    match finish (json_feed json_init doc) with
    | inr v => inr v
    | inl (msg, back) => inl (decode_error msg doc (length doc - back))
    end.

(** ** [json.dumps] *)

Definition hex_digit (n : N) : N := if (n <? 10)%N then (48 + n)%N else (87 + n)%N.

Definition u_escape (c : N) : pystr :=
  [92; 117; hex_digit ((c / 4096) mod 16); hex_digit ((c / 256) mod 16);
   hex_digit ((c / 16) mod 16); hex_digit (c mod 16)]%N.

Definition escape_char (ensure_ascii : bool) (c : N) : pystr :=
  if (c =? 34)%N then [92; 34]%N
  else if (c =? 92)%N then [92; 92]%N
  else if (c =? 10)%N then [92; 110]%N
  else if (c =? 13)%N then [92; 114]%N
  else if (c =? 9)%N then [92; 116]%N
  else if (c =? 8)%N then [92; 98]%N
  else if (c =? 12)%N then [92; 102]%N
  else if (c <? 32)%N then u_escape c
  else if ensure_ascii && (126 <? c)%N then
    if (c <? 65536)%N then u_escape c
    else
      let n := (c - 65536)%N in
      u_escape (55296 + (n / 1024) mod 1024) ++ u_escape (56320 + n mod 1024)
  else [c].

Definition encode_str (ensure_ascii : bool) (s : pystr) : pystr :=
  [34%N] ++ flat_map (escape_char ensure_ascii) s ++ [34%N].

Fixpoint join (sep : pystr) (l : list pystr) : pystr :=
  match l with
  | [] => []
  | [x] => x
  | x :: l' => x ++ sep ++ join sep l'
  end.

Definition newline_indent (indent : option nat) (level : nat) : pystr :=
  match indent with
  | None => []
  | Some n => NL :: repeat 32%N (n * level)
  end.

Definition item_separator (indent : option nat) : pystr :=
  match indent with None => u ", " | Some _ => u "," end.

(** [json.dumps(v, ensure_ascii=..., indent=...)]; [level] is the depth of
    the value in the document. *)
Fixpoint dumps_at (ensure_ascii : bool) (indent : option nat) (level : nat)
  (v : pyval) : pystr :=
  let sep := item_separator indent ++ newline_indent indent (S level) in
  match v with
  | PNone => u "null"
  | PBool true => u "true"
  | PBool false => u "false"
  | PInt z => str_of_Z z
  | PFloat lit => lit
  | PStr s => encode_str ensure_ascii s
  | PList [] => u "[]"
  | PList items =>
      u "[" ++ newline_indent indent (S level)
        ++ join sep (map (dumps_at ensure_ascii indent (S level)) items)
        ++ newline_indent indent level ++ u "]"
  | PDict [] => u "{}"
  | PDict items =>
      u "{" ++ newline_indent indent (S level)
        ++ join sep
             (map (fun kv => encode_str ensure_ascii (fst kv) ++ u ": "
                             ++ dumps_at ensure_ascii indent (S level) (snd kv))
                  items)
        ++ newline_indent indent level ++ u "}"
  end.

Definition json_dumps (ensure_ascii : bool) (indent : option nat) (v : pyval)
  : pystr :=
  dumps_at ensure_ascii indent 0 v.

(** ** The remote API and the events of a run *)

Record http_request := HttpRequest {
  req_url : pystr;
  req_headers : list (pystr * pystr);
  req_data : pystr
}.

Record http_response := HttpResponse {
  status_code : Z;
  text : pystr
}.

(** What [requests.post] does: a response, or an exception of the
    transport with its text. *)
Inductive http_outcome :=
| Responded (r : http_response)
| TransportFailure (msg : pystr).

Inductive stage :=
| ClauseExtraction | RiskAnalysis | ComplianceAnalysis
| ReportGeneration | AccuracyCheck.

Inductive event :=
| Progress (percent : Z) (message : pystr)   (* progress_updated.emit *)
| Complete (results : pydict)                (* processing_complete.emit *)
| Failure (message : pystr)                  (* processing_error.emit *)
| HttpPost (req : http_request)              (* requests.post *)
| Invoke (s : stage) (args : list pyval)     (* an agent's method is called *)
| Return (s : stage) (v : pyval)             (* and returns *)
| MessageBoxWarning (title message : pystr)  (* QMessageBox.warning *)
| ShowApiSettings                            (* show_api_settings *)
| ProcessButtonEnabled (b : bool)            (* process_button.setEnabled *)
| ProgressBarValue (z : Z)                   (* progress_bar.setValue *)
| ThreadStart.                               (* processing_thread.start *)

Record world := World {
  requests_made : nat;
  log : list event
}.

(** ** Computations: state and exceptions *)

Definition M (A : Type) : Type := world -> (exn + A) * world.

Definition ret {A} (a : A) : M A := fun w => (inr a, w).

Definition bind {A B} (m : M A) (k : A -> M B) : M B :=
  fun w =>
    match m w with
    | (inr a, w') => k a w'
    | (inl e, w') => (inl e, w')
    end.

Definition lift {A} (r : exn + A) : M A := fun w => (r, w).

(** [try: body  except Exception as e: handler(e)] *)
Definition try_except {A} (body : M A) (handler : exn -> M A) : M A :=
  fun w =>
    match body w with
    | (inr a, w') => (inr a, w')
    | (inl e, w') => handler e w'
    end.

Definition emit (e : event) : M unit :=
  fun w => (inr tt, World (requests_made w) (log w ++ [e])).

Declare Scope monad_scope.
Delimit Scope monad_scope with monad.
Notation "x <- c ;; k" := (bind c (fun x => k))
  (at level 61, c at next level, right associativity) : monad_scope.
Notation "c ;; k" := (bind c (fun _ => k))
  (at level 61, right associativity) : monad_scope.

(** ** Subscripts and formatting *)

Definition type_name (v : pyval) : pystr :=
  match v with
  | PNone => u "NoneType"
  | PBool _ => u "bool"
  | PInt _ => u "int"
  | PFloat _ => u "float"
  | PStr _ => u "str"
  | PList _ => u "list"
  | PDict _ => u "dict"
  end.

Definition not_subscriptable (v : pyval) : exn :=
  Exn TypeError (u "'" ++ type_name v ++ u "' object is not subscriptable").

(** [v[k]] for a key [k] that is a plain identifier (its [repr] is the key
    between single quotes). *)
Definition getitem_str (v : pyval) (k : pystr) : exn + pyval :=
  match v with
  | PDict d =>
      match dict_get d k with
      | Some x => inr x
      | None => inl (Exn KeyError (u "'" ++ k ++ u "'"))
      end
  | PList _ =>
      inl (Exn TypeError (u "list indices must be integers or slices, not str"))
  | PStr _ =>
      inl (Exn TypeError (u "string indices must be integers, not 'str'"))
  | _ => inl (not_subscriptable v)
  end.

(** [v[0]]; the keys of a decoded object are strings, so a dict has no key 0. *)
Definition getitem_0 (v : pyval) : exn + pyval :=
  match v with
  | PList (x :: _) => inr x
  | PList [] => inl (Exn IndexError (u "list index out of range"))
  | PStr (c :: _) => inr (PStr [c])
  | PStr [] => inl (Exn IndexError (u "string index out of range"))
  | PDict _ => inl (Exn KeyError (u "0"))
  | _ => inl (not_subscriptable v)
  end.

(** [response.json()["choices"][0]["message"]["content"]] *)
Definition completion_content (body : pyval) : exn + pyval :=
  match getitem_str body (u "choices") with
  | inl e => inl e
  | inr choices =>
      match getitem_0 choices with
      | inl e => inl e
      | inr choice =>
          match getitem_str choice (u "message") with
          | inl e => inl e
          | inr message => getitem_str message (u "content")
          end
      end
  end.

Definition is_container (v : pyval) : bool :=
  match v with PList _ | PDict _ => true | _ => false end.

(** *** The prompts of the agents, as in the source *)

Definition CLAUSE_SYSTEM_PROMPT : pystr :=
  u "
        你是一个专业的合同条款分析专家。你的任务是从合同文本中提取关键条款信息。
        请识别并提取以下类型的条款：
        1. 合同双方信息
        2. 合同标的
        3. 价格与支付条款
        4. 交付条款
        5. 违约责任
        6. 争议解决方式
        7. 保密条款
        8. 合同有效期
        9. 终止条款

        请以JSON格式返回结果，包含条款类型和对应的条款内容。
        如果某个条款类型在合同中未找到，请在JSON中包含该条款类型并将其值设为" ++ [34%N] ++ u "未找到" ++ [34%N] ++ u "。
        ".

Definition RISK_SYSTEM_PROMPT : pystr :=
  u "
        你是一位经验丰富的合同风险评估专家。基于提取的合同关键条款信息，
        请对合同进行风险量化分析。评估每个条款的风险等级（低、中、高），
        计算总体风险得分（0-100分），并提供详细的风险分析报告。

        请以JSON格式返回结果，包含以下内容：
        1. 各条款风险评估（风险等级和理由）
        2. 总体风险得分
        3. 主要风险点摘要
        4. 风险等级（基于总体得分：0-30低风险，31-60中等风险，61-100高风险）
        ".

Definition DEFAULT_COMPLIANCE_RULES : pystr :=
  u "
            1. 合同必须明确双方当事人的名称、地址和联系方式。
            2. 合同标的必须明确、具体，具有可操作性。
            3. 价格条款必须明确金额、支付方式和支付时间。
            4. 交付条款必须明确交付时间、地点和方式。
            5. 违约责任条款必须明确双方的责任和赔偿方式。
            6. 争议解决条款必须符合法律规定，明确解决方式。
            7. 保密条款必须明确保密信息范围和保密期限。
            8. 合同有效期必须明确起始和终止日期。
            9. 终止条款必须明确终止条件和程序。
            ".

Definition compliance_system_prompt (compliance_rules : pystr) : pystr :=
  u "
        你是一位资深的合同合规性审查专家。请根据以下合规性规则，
        对提供的合同条款进行合规性分析：

        " ++ compliance_rules ++ u "

        请以JSON格式返回结果，包含：
        1. 各条款合规性评估（合规、不合规、部分合规）
        2. 不合规条款的详细说明和建议
        3. 总体合规性评级（合规、基本合规、不合规）
        4. 合规性得分（0-100分）
        ".

Definition REPORT_SYSTEM_PROMPT : pystr :=
  u "
        你是一位专业的合同审查报告撰写专家。请根据提供的合同条款信息、
        风险分析数据和合规性分析数据，生成一份全面的合同审查报告。

        报告应包括以下部分：
        1. 报告概述（包括合同基本信息和审查日期）
        2. 关键条款摘要
        3. 风险评估结果
        4. 合规性分析结果
        5. 综合评估与建议
        6. 整改建议清单

        请以清晰、专业的语言撰写报告，确保内容准确、有逻辑性且易于理解。
        ".

Definition ACCURACY_SYSTEM_PROMPT : pystr :=
  u "
        你是一位严谨的合同审查质量保证专家。请检查生成的合同审查报告
        是否准确反映了原始合同的内容。重点检查以下方面：

        1. 关键条款提取的准确性
        2. 风险评估的合理性
        3. 合规性分析的准确性
        4. 报告中是否存在事实性错误
        5. 建议的相关性和可行性

        请提供一份准确性检查报告，指出任何不准确或需要改进的地方，
        并给出改进建议。
        ".

Definition accuracy_prompt (original_contract generated_report : pystr) : pystr :=
  u "
        原始合同文本：
        " ++ original_contract ++ u "

        生成的审查报告：
        " ++ generated_report ++ u "

        请对上述审查报告进行准确性检查。
        ".

(** ** The program *)

Record APIConfig := {
  api_base_url : pystr;
  api_key : pystr;
  model_name : pystr;
  temperature : pystr;   (* a float, by its literal *)
  max_tokens : Z
}.

(** An [Agent] after [__init__]. *)
Record Agent := {
  agent_config : APIConfig;
  headers : list (pystr * pystr)
}.

Definition Agent_init (api_config : APIConfig) : Agent :=
  {| agent_config := api_config;
     headers := [(u "Content-Type", u "application/json");
                 (u "Authorization", u "Bearer " ++ api_key api_config)] |}.

Definition ERROR_KEY : pystr := Eval cbv in u "解析错误".
Definition ERROR_PREFIX : pystr :=
  Eval cbv in u "无法将响应解析为JSON格式。原始响应: ".
Definition API_FAILED : pystr := Eval cbv in u "API调用失败: HTTP ".
Definition API_EXCEPTION : pystr := Eval cbv in u "API调用异常: ".

Definition KEY_CLAUSES : pystr := Eval cbv in u "条款提取".
Definition KEY_RISK : pystr := Eval cbv in u "风险分析".
Definition KEY_COMPLIANCE : pystr := Eval cbv in u "合规性分析".
Definition KEY_REPORT : pystr := Eval cbv in u "审查报告".
Definition KEY_ACCURACY : pystr := Eval cbv in u "准确性检查".

(** [response.strip().replace('```json', '').replace('```', '')] *)
Definition strip_fences (response : pystr) : pystr :=
  replace FENCE [] (replace FENCE_JSON [] (strip response)).

Section Program.

(** [repr] of a [str], and the remote API: what the [n]-th request of the
    run is answered. *)
Variable repr_str : pystr -> pystr.
Variable net : nat -> http_request -> http_outcome.

Definition float_str (lit : pystr) : pystr :=
  if pystr_eqb lit (u "NaN") then u "nan"
  else if pystr_eqb lit (u "Infinity") then u "inf"
  else if pystr_eqb lit (u "-Infinity") then u "-inf"
  else lit.

Fixpoint py_repr (v : pyval) : pystr :=
  match v with
  | PNone => u "None"
  | PBool true => u "True"
  | PBool false => u "False"
  | PInt z => str_of_Z z
  | PFloat lit => float_str lit
  | PStr s => repr_str s
  | PList items => u "[" ++ join (u ", ") (map py_repr items) ++ u "]"
  | PDict items =>
      u "{" ++ join (u ", ")
                 (map (fun kv => repr_str (fst kv) ++ u ": " ++ py_repr (snd kv))
                      items)
        ++ u "}"
  end.

(** [f"{v}"], that is [str(v)]. *)
Definition py_format (v : pyval) : pystr :=
  match v with
  | PStr s => s
  | _ => py_repr v
  end.

Definition requests_post (req : http_request) : M http_response :=
  fun w =>
    let w' := World (S (requests_made w)) (log w ++ [HttpPost req]) in
    match net (requests_made w) req with
    | Responded r => (inr r, w')
    | TransportFailure msg => (inl (Exn RequestException msg), w')
    end.

Local Open Scope monad_scope.

(** [Agent.call_api] *)
Definition call_api (self : Agent) (prompt system_prompt : pystr) : M pyval :=
  try_except
    (let data :=
       PDict [(u "model", PStr (model_name (agent_config self)));
              (u "messages",
               PList [PDict [(u "role", PStr (u "system"));
                             (u "content", PStr system_prompt)];
                      PDict [(u "role", PStr (u "user"));
                             (u "content", PStr prompt)]]);
              (u "temperature", PFloat (temperature (agent_config self)));
              (u "max_tokens", PInt (max_tokens (agent_config self)))] in
     response <-
       requests_post
         (HttpRequest (api_base_url (agent_config self) ++ u "/chat/completions")
                      (headers self) (json_dumps true None data)) ;;
     if (status_code response =? 200)%Z then
       body <- lift (json_loads (text response)) ;;
       lift (completion_content body)
     else
       let error_msg :=
         API_FAILED ++ str_of_Z (status_code response) ++ u ", " ++ text response in
       ret (PStr error_msg))
    (fun e => ret (PStr (API_EXCEPTION ++ exn_str e))).

(** The [try] block of the three [analyze] methods, which is the same in
    each: the binding of [response] when the block ends, and the value or
    the exception of the block. *)
Definition parse_block (response : pyval) : pyval * (exn + pyval) :=
  match response with
  | PStr s =>
      let response := strip_fences s in
      (PStr response, json_loads response)
  | _ =>
      (response,
       inl (Exn AttributeError
              (u "'" ++ type_name response ++ u "' object has no attribute 'strip'")))
  end.

(** The [try] block with its [except] clause. *)
Definition parse_response (response : pyval) : pyval :=
  match parse_block response with
  | (_, inr data) => data
  | (response, inl _) =>
      PDict [(ERROR_KEY, PStr (ERROR_PREFIX ++ py_format response))]
  end.

(** [ClauseExtractionAgent.analyze] *)
Definition ClauseExtractionAgent_analyze (self : Agent) (contract_text : pystr)
  : M pyval :=
  let prompt := u "请分析以下合同文本并提取关键条款信息：

" ++ contract_text in
  response <- call_api self prompt CLAUSE_SYSTEM_PROMPT ;;
  ret (parse_response response).

(** [RiskAnalysisAgent.analyze] *)
Definition RiskAnalysisAgent_analyze (self : Agent) (clause_data : pyval)
  : M pyval :=
  let clause_json := json_dumps false (Some 2) clause_data in
  let prompt := u "请对以下合同条款进行风险量化分析：

" ++ clause_json in
  response <- call_api self prompt RISK_SYSTEM_PROMPT ;;
  ret (parse_response response).

(** [ComplianceAnalysisAgent.analyze] *)
Definition ComplianceAnalysisAgent_analyze (self : Agent) (clause_data : pyval)
  (compliance_rules : option pystr) : M pyval :=
  let compliance_rules :=
    match compliance_rules with
    | None => DEFAULT_COMPLIANCE_RULES
    | Some rules => rules
    end in
  let system_prompt := compliance_system_prompt compliance_rules in
  let clause_json := json_dumps false (Some 2) clause_data in
  let prompt := u "请对以下合同条款进行合规性分析：

" ++ clause_json in
  response <- call_api self prompt system_prompt ;;
  ret (parse_response response).

(** [ReportGenerationAgent.generate] *)
Definition ReportGenerationAgent_generate (self : Agent)
  (clause_data risk_data compliance_data : pyval) : M pyval :=
  let combined_data :=
    PDict [(u "条款信息", clause_data);
           (u "风险分析", risk_data);
           (u "合规性分析", compliance_data)] in
  let combined_json := json_dumps false (Some 2) combined_data in
  let prompt := u "请根据以下数据生成合同审查报告：

" ++ combined_json in
  call_api self prompt REPORT_SYSTEM_PROMPT.

(** [AccuracyCheckAgent.check] *)
Definition AccuracyCheckAgent_check (self : Agent)
  (original_contract generated_report : pyval) : M pyval :=
  let prompt :=
    accuracy_prompt (py_format original_contract) (py_format generated_report) in
  call_api self prompt ACCURACY_SYSTEM_PROMPT.

(** A call of an agent's method, with its arguments and its result made
    observable. *)
Definition invoke (s : stage) (args : list pyval) (call : M pyval) : M pyval :=
  emit (Invoke s args) ;;
  v <- call ;;
  emit (Return s v) ;;
  ret v.

(** [ContractProcessingThread.run] *)
Definition run (api_config : APIConfig) (contract_text : pystr) : M unit :=
  try_except
    (emit (Progress 10 (u "初始化智能体...")) ;;
     let clause_agent := Agent_init api_config in
     let risk_agent := Agent_init api_config in
     let compliance_agent := Agent_init api_config in
     let report_agent := Agent_init api_config in
     let accuracy_agent := Agent_init api_config in
     let results : pydict := [] in
     emit (Progress 20 (u "正在提取合同关键条款...")) ;;
     clause_data <-
       invoke ClauseExtraction [PStr contract_text]
         (ClauseExtractionAgent_analyze clause_agent contract_text) ;;
     let results := dict_set results KEY_CLAUSES clause_data in
     emit (Progress 35 (u "合同关键条款提取完成")) ;;
     emit (Progress 40 (u "正在进行风险量化分析...")) ;;
     risk_data <-
       invoke RiskAnalysis [clause_data]
         (RiskAnalysisAgent_analyze risk_agent clause_data) ;;
     let results := dict_set results KEY_RISK risk_data in
     emit (Progress 55 (u "风险量化分析完成")) ;;
     emit (Progress 60 (u "正在进行合规性分析...")) ;;
     compliance_data <-
       invoke ComplianceAnalysis [clause_data]
         (ComplianceAnalysisAgent_analyze compliance_agent clause_data None) ;;
     let results := dict_set results KEY_COMPLIANCE compliance_data in
     emit (Progress 75 (u "合规性分析完成")) ;;
     emit (Progress 80 (u "正在生成审查报告...")) ;;
     report <-
       invoke ReportGeneration [clause_data; risk_data; compliance_data]
         (ReportGenerationAgent_generate report_agent
            clause_data risk_data compliance_data) ;;
     let results := dict_set results KEY_REPORT report in
     emit (Progress 90 (u "审查报告生成完成")) ;;
     emit (Progress 91 (u "正在检查报告准确性...")) ;;
     accuracy_check <-
       invoke AccuracyCheck [PStr contract_text; report]
         (AccuracyCheckAgent_check accuracy_agent (PStr contract_text) report) ;;
     let results := dict_set results KEY_ACCURACY accuracy_check in
     emit (Progress 100 (u "报告准确性检查完成")) ;;
     emit (Complete results))
    (fun e => emit (Failure (u "处理过程中发生错误: " ++ exn_str e))).

(** The part of [ContractReviewApp] that [process_contract] reads. *)
Record ContractReviewApp := {
  app_api_config : APIConfig;
  app_contract_text : pystr
}.

(** [ContractReviewApp.process_contract]; the events of the thread it
    starts follow [ThreadStart]. *)
Definition process_contract (self : ContractReviewApp) : M unit :=
  match app_contract_text self with
  | [] => emit (MessageBoxWarning (u "合同为空") (u "请先加载合同文件"))
  | _ :: _ =>
      match api_key (app_api_config self) with
      | [] =>
          emit (MessageBoxWarning (u "API密钥未设置") (u "请先设置API密钥")) ;;
          emit ShowApiSettings
      | _ :: _ =>
          emit (ProcessButtonEnabled false) ;;
          emit (ProgressBarValue 0) ;;
          emit ThreadStart ;;
          run (app_api_config self) (app_contract_text self)
      end
  end.

(** [datetime.now()], read when the report is generated. *)
Record datetime := {
  year : Z; month : Z; day : Z; hour : Z; minute : Z; second : Z
}.

Definition pad2 (z : Z) : pystr :=
  if (z <? 10)%Z then u "0" ++ str_of_Z z else str_of_Z z.

(** [now.strftime('%Y年%m月%d日 %H:%M:%S')] *)
Definition strftime_report (now : datetime) : pystr :=
  str_of_Z (year now) ++ u "年" ++ pad2 (month now) ++ u "月"
    ++ pad2 (day now) ++ u "日 " ++ pad2 (hour now) ++ u ":"
    ++ pad2 (minute now) ++ u ":" ++ pad2 (second now).

(** [d.get(k, default)] *)
Definition dict_get_default (d : pydict) (k : pystr) (default : pyval) : pyval :=
  match dict_get d k with
  | Some v => v
  | None => default
  end.

(** One item of a stage's mapping: a heading, then the value, as JSON in a
    fenced block when it is a mapping or a sequence. *)
Definition render_item (key : pystr) (value : pyval) : pystr :=
  u "### " ++ key ++ [NL]
    ++ (if is_container value
        then u "```json" ++ [NL] ++ json_dumps false (Some 2) value ++ [NL]
               ++ u "```" ++ [NL; NL]
        else py_format value ++ [NL; NL]).

(** The body of one of the first three sections; the source repeats this
    code for each of them. *)
Definition render_stage (data : pyval) : pystr :=
  match data with
  | PDict items => flat_map (fun kv => render_item (fst kv) (snd kv)) items
  | _ => py_format data ++ [NL; NL]
  end.

(** [report += value]: [value] has to be a [str]. *)
Definition str_iadd (report : pystr) (value : pyval) : exn + pystr :=
  match value with
  | PStr s => inr (report ++ s)
  | _ =>
      inl (Exn TypeError
             (u "can only concatenate str (not " ++ [34%N] ++ type_name value
                ++ [34%N] ++ u ") to str"))
  end.

Definition TITLE : pystr := Eval cbv in u "# 合同审查综合报告" ++ [NL; NL].
Definition HEADING_1 : pystr := Eval cbv in u "## 一、关键条款提取结果" ++ [NL; NL].
Definition HEADING_2 : pystr := Eval cbv in u "## 二、风险量化分析结果" ++ [NL; NL].
Definition HEADING_3 : pystr := Eval cbv in u "## 三、合规性分析结果" ++ [NL; NL].
Definition HEADING_4 : pystr := Eval cbv in u "## 四、详细审查报告" ++ [NL; NL].
Definition HEADING_5 : pystr :=
  Eval cbv in [NL; NL] ++ u "## 五、准确性检查结果" ++ [NL; NL].

(** [ContractReviewApp.generate_combined_report], with [self.results] and
    the time read. *)
Definition generate_combined_report (results : pydict) (now : datetime)
  : exn + pystr :=
  let report := TITLE in
  let report := report ++ u "**审查日期:** " ++ strftime_report now ++ [NL; NL] in
  let report := report ++ HEADING_1 in
  let clause_data := dict_get_default results KEY_CLAUSES (PDict []) in
  let report := report ++ render_stage clause_data in
  let report := report ++ HEADING_2 in
  let risk_data := dict_get_default results KEY_RISK (PDict []) in
  let report := report ++ render_stage risk_data in
  let report := report ++ HEADING_3 in
  let compliance_data := dict_get_default results KEY_COMPLIANCE (PDict []) in
  let report := report ++ render_stage compliance_data in
  let report := report ++ HEADING_4 in
  match str_iadd report (dict_get_default results KEY_REPORT (PStr [])) with
  | inl e => inl e
  | inr report =>
      let report := report ++ HEADING_5 in
      str_iadd report (dict_get_default results KEY_ACCURACY (PStr []))
  end.

(** The events of a computation started in the initial world. *)
Definition events_of {A} (m : M A) : list event := log (snd (m (World 0 []))).

End Program.

(** ** What the program sends and gets: auxiliary definitions *)

(** The request [call_api] sends. *)
Definition api_request (self : Agent) (prompt system_prompt : pystr)
  : http_request :=
  HttpRequest
    (api_base_url (agent_config self) ++ u "/chat/completions")
    (headers self)
    (json_dumps true None
       (PDict [(u "model", PStr (model_name (agent_config self)));
               (u "messages",
                PList [PDict [(u "role", PStr (u "system"));
                              (u "content", PStr system_prompt)];
                       PDict [(u "role", PStr (u "user"));
                              (u "content", PStr prompt)]]);
               (u "temperature", PFloat (temperature (agent_config self)));
               (u "max_tokens", PInt (max_tokens (agent_config self)))])).

(** What [call_api] returns, by what the transport did. *)
Definition api_reply (o : http_outcome) : pyval :=
  match o with
  | TransportFailure msg => PStr (API_EXCEPTION ++ msg)
  | Responded r =>
      if (status_code r =? 200)%Z then
        match json_loads (text r) with
        | inl e => PStr (API_EXCEPTION ++ exn_str e)
        | inr body =>
            match completion_content body with
            | inl e => PStr (API_EXCEPTION ++ exn_str e)
            | inr content => content
            end
        end
      else PStr (API_FAILED ++ str_of_Z (status_code r) ++ u ", " ++ text r)
  end.



(** ** Views of a list of events *)

Definition is_stage_event (e : event) : bool :=
  match e with
  | Invoke _ _ | Return _ _ => true
  | _ => false
  end.

(** The percent values notified, in order. *)
Definition percents (evs : list event) : list Z :=
  flat_map (fun e => match e with Progress p _ => [p] | _ => [] end) evs.

Inductive mark :=
| Notified (percent : Z)
| Entered (s : stage)
| Left (s : stage).

(** Progress notifications and stage boundaries, in order. *)
Definition marks (evs : list event) : list mark :=
  flat_map (fun e =>
              match e with
              | Progress p _ => [Notified p]
              | Invoke s _ => [Entered s]
              | Return s _ => [Left s]
              | _ => []
              end) evs.

(** Every argument of every call is among [avail] or was returned by an
    earlier call. *)
Fixpoint inputs_available (avail : list pyval) (evs : list event) : Prop :=
  match evs with
  | [] => True
  | Invoke _ args :: evs' =>
      (forall a, In a args -> In a avail) /\ inputs_available avail evs'
  | Return _ v :: evs' => inputs_available (v :: avail) evs'
  | _ :: evs' => inputs_available avail evs'
  end.

Fixpoint nondecreasing (l : list Z) : bool :=
  match l with
  | [] => true
  | x :: l' =>
      match l' with
      | [] => true
      | y :: _ => (x <=? y)%Z && nondecreasing l'
      end
  end.

Definition is_str (v : pyval) : bool :=
  match v with PStr _ => true | _ => false end.
(** ** The events of a run *)

Section RunDefs.

Variable repr_str : pystr -> pystr.
Variable net : nat -> http_request -> http_outcome.
Variable api_config : APIConfig.
Variable contract_text : pystr.

(** The requests of the five stages. *)
Definition clause_request : http_request :=
  api_request (Agent_init api_config)
    (u "请分析以下合同文本并提取关键条款信息：

" ++ contract_text) CLAUSE_SYSTEM_PROMPT.

Definition risk_request (clause_data : pyval) : http_request :=
  api_request (Agent_init api_config)
    (u "请对以下合同条款进行风险量化分析：

" ++ json_dumps false (Some 2) clause_data) RISK_SYSTEM_PROMPT.

Definition compliance_request (clause_data : pyval) : http_request :=
  api_request (Agent_init api_config)
    (u "请对以下合同条款进行合规性分析：

" ++ json_dumps false (Some 2) clause_data)
    (compliance_system_prompt DEFAULT_COMPLIANCE_RULES).

Definition report_request (clause_data risk_data compliance_data : pyval)
  : http_request :=
  api_request (Agent_init api_config)
    (u "请根据以下数据生成合同审查报告：

" ++ json_dumps false (Some 2)
       (PDict [(u "条款信息", clause_data);
               (u "风险分析", risk_data);
               (u "合规性分析", compliance_data)]))
    REPORT_SYSTEM_PROMPT.

Definition accuracy_request (report : pyval) : http_request :=
  api_request (Agent_init api_config)
    (accuracy_prompt contract_text (py_format repr_str report))
    ACCURACY_SYSTEM_PROMPT.

(** The results of the five stages of a run whose first request is the
    [n]-th. *)
Definition clause_result (n : nat) : pyval :=
  parse_response repr_str (api_reply (net n clause_request)).

Definition risk_result (n : nat) : pyval :=
  parse_response repr_str
    (api_reply (net (1 + n) (risk_request (clause_result n)))).

Definition compliance_result (n : nat) : pyval :=
  parse_response repr_str
    (api_reply (net (2 + n) (compliance_request (clause_result n)))).

Definition report_result (n : nat) : pyval :=
  api_reply
    (net (3 + n)
       (report_request (clause_result n) (risk_result n) (compliance_result n))).

Definition accuracy_result (n : nat) : pyval :=
  api_reply (net (4 + n) (accuracy_request (report_result n))).

Definition final_results (n : nat) : pydict :=
  [(KEY_CLAUSES, clause_result n); (KEY_RISK, risk_result n);
   (KEY_COMPLIANCE, compliance_result n); (KEY_REPORT, report_result n);
   (KEY_ACCURACY, accuracy_result n)].

Definition run_events (n : nat) : list event :=
  [Progress 10 (u "初始化智能体...");
   Progress 20 (u "正在提取合同关键条款...");
   Invoke ClauseExtraction [PStr contract_text];
   HttpPost clause_request;
   Return ClauseExtraction (clause_result n);
   Progress 35 (u "合同关键条款提取完成");
   Progress 40 (u "正在进行风险量化分析...");
   Invoke RiskAnalysis [clause_result n];
   HttpPost (risk_request (clause_result n));
   Return RiskAnalysis (risk_result n);
   Progress 55 (u "风险量化分析完成");
   Progress 60 (u "正在进行合规性分析...");
   Invoke ComplianceAnalysis [clause_result n];
   HttpPost (compliance_request (clause_result n));
   Return ComplianceAnalysis (compliance_result n);
   Progress 75 (u "合规性分析完成");
   Progress 80 (u "正在生成审查报告...");
   Invoke ReportGeneration [clause_result n; risk_result n; compliance_result n];
   HttpPost (report_request (clause_result n) (risk_result n) (compliance_result n));
   Return ReportGeneration (report_result n);
   Progress 90 (u "审查报告生成完成");
   Progress 91 (u "正在检查报告准确性...");
   Invoke AccuracyCheck [PStr contract_text; report_result n];
   HttpPost (accuracy_request (report_result n));
   Return AccuracyCheck (accuracy_result n);
   Progress 100 (u "报告准确性检查完成");
   Complete (final_results n)].

End RunDefs.

(** ** Concrete inputs *)

Definition example_config : APIConfig :=
  {| api_base_url := u "https://api.deepseek.com/v1";
     api_key := u "sk-test";
     model_name := u "deepseek-chat";
     temperature := u "0.2";
     max_tokens := 8000 |}.

(** [repr] of a [str] of printable ASCII characters other than the quotes
    and the backslash. *)
Definition ascii_repr (s : pystr) : pystr := u "'" ++ s ++ u "'".

(** A 200 response whose first completion has the given content. *)
Definition completion (content : pyval) : http_outcome :=
  Responded
    (HttpResponse 200
       (json_dumps true None
          (PDict [(u "choices",
                   PList [PDict [(u "message",
                                  PDict [(u "content", content)])]])]))).

(** The transport fails on the second request of the run. *)
Definition net_risk_fails (n : nat) (req : http_request) : http_outcome :=
  match n with
  | 1 => TransportFailure (u "Connection refused")
  | _ => completion (PStr (u "{}"))
  end.

(** The completion of the fourth request of the run has no content. *)
Definition net_null_report (n : nat) (req : http_request) : http_outcome :=
  match n with
  | 3 => completion PNone
  | _ => completion (PStr (u "{}"))
  end.

Definition example_now : datetime :=
  {| year := 2025; month := 3; day := 7; hour := 9; minute := 5; second := 0 |}.

(** Every request is answered 201 with a well-formed completion. *)
Definition net_created (n : nat) (req : http_request) : http_outcome :=
  match completion (PStr (u "hi")) with
  | Responded r => Responded (HttpResponse 201 (text r))
  | o => o
  end.

(** Every request is answered 200 with a completion that has no content. *)
Definition net_null (n : nat) (req : http_request) : http_outcome :=
  completion PNone.

(** Every request is answered 200 with a body that is not JSON. *)
Definition net_garbage (n : nat) (req : http_request) : http_outcome :=
  Responded (HttpResponse 200 (u "<html>Bad Gateway</html>")).

Definition example_contract : pystr :=
  u "甲方：张三
乙方：李四
第一条 价款为人民币一万元。".

Definition is_failure (e : event) : bool :=
  match e with Failure _ => true | _ => false end.

(** ** The control state of the decoder, without the values

    Whether a document is accepted depends on the control state only: the
    containers that are open and what is expected next. *)

Inductive fshape :=
| SArr
| SObj (has_key : bool).

Inductive mshape :=
| SValue (first : bool)
| SKey (first : bool)
| SColon
| SAfter
| SStr (is_key : bool)
| SEsc (is_key : bool)
| SHex (is_key : bool) (k : nat)
| SNum (ns : numstate)
| SLit (l : literal) (n : nat).

Inductive shape :=
| ShRun (stk : list fshape) (m : mshape)
| ShDone
| ShErr.

Definition frame_shape (f : frame) : fshape :=
  match f with
  | FArr _ => SArr
  | FObj _ (Some _) => SObj true
  | FObj _ None => SObj false
  end.

Definition mode_shape (m : mode) : mshape :=
  match m with
  | MValue first => SValue first
  | MKey first => SKey first
  | MColon => SColon
  | MAfter => SAfter
  | MStr is_key _ _ => SStr is_key
  | MEsc is_key _ _ => SEsc is_key
  | MHex is_key _ _ k _ => SHex is_key k
  | MNum ns _ => SNum ns
  | MLit l n => SLit l n
  end.

Definition shape_of (st : jstate) : shape :=
  match st with
  | JRun stk m => ShRun (map frame_shape stk) (mode_shape m)
  | JDone _ => ShDone
  | JErr _ _ _ => ShErr
  end.

(** The document read so far is a complete JSON text. *)
Definition accepted (st : jstate) : bool :=
  match finish st with
  | inr _ => true
  | inl _ => false
  end.

(** A character that stands for itself in a string. *)
Definition plain_char (c : N) : bool :=
  ((32 <=? c) && negb (c =? 34) && negb (c =? 92))%N.

(** A reply between Markdown fences, and a string literal. *)
Definition fenced (j : pystr) : pystr := FENCE_JSON ++ [NL] ++ j ++ [NL] ++ FENCE.

Definition quoted (t : pystr) : pystr := 34%N :: t ++ [34%N].

(** [s.replace('```json', '').replace('```', '')] *)
Definition remove_fences (s : pystr) : pystr :=
  replace FENCE [] (replace FENCE_JSON [] s).

(** The remote API gives the same reply to every request. *)
Definition replies_with (net : nat -> http_request -> http_outcome)
  (reply : pyval) : Prop :=
  forall n req, api_reply (net n req) = reply.

(** A reply that is not JSON, between fences. *)
Definition fenced_garbage : pystr := fenced (u "{oops").

Definition net_fenced_garbage (n : nat) (req : http_request) : http_outcome :=
  completion (PStr fenced_garbage).

(** A JSON reply, and the same reply between fences. *)
Definition example_reply : pystr :=
  u " {" ++ quoted (u "甲方") ++ u ": " ++ quoted (u "张三") ++ u ", "
    ++ quoted (u "价款") ++ u ": [10000, " ++ quoted (u "元") ++ u "]}
".

Definition net_plain (n : nat) (req : http_request) : http_outcome :=
  completion (PStr example_reply).

Definition net_fenced (n : nat) (req : http_request) : http_outcome :=
  completion (PStr (fenced example_reply)).

(** ** Further definitions for the statements below *)

(** The record [analyze] returns when it cannot decode: one key. *)
Definition error_record (s : pystr) : pyval :=
  PDict [(ERROR_KEY, PStr (ERROR_PREFIX ++ s))].

(** The call did not get a 200 response. *)
Definition is_failed (o : http_outcome) : bool :=
  match o with
  | TransportFailure _ => true
  | Responded r => negb (status_code r =? 200)%Z
  end.

(** A reply between fences without a language tag, and between fences
    whose tag is in upper case. *)
Definition bare_fenced (j : pystr) : pystr := FENCE ++ [NL] ++ j ++ [NL] ++ FENCE.

Definition upper_fenced (j : pystr) : pystr :=
  u "```JSON" ++ [NL] ++ j ++ [NL] ++ FENCE.

(** The network is down; the key is refused. *)
Definition net_down (n : nat) (req : http_request) : http_outcome :=
  TransportFailure (u "Connection refused").

Definition net_unauthorized (n : nat) (req : http_request) : http_outcome :=
  Responded (HttpResponse 401 (u "{}")).

Definition is_http_post (e : event) : bool :=
  match e with HttpPost _ => true | _ => false end.

Definition is_dict (v : pyval) : bool :=
  match v with PDict _ => true | _ => false end.

(** Each of the three structured agents returns [v], whatever it is given
    and whenever it is called. *)
Definition structured_agents_return (repr_str : pystr -> pystr)
  (net : nat -> http_request -> http_outcome) (v : pyval) : Prop :=
  forall self contract_text clause_data rules w,
    fst (ClauseExtractionAgent_analyze repr_str net self contract_text w) = inr v
    /\ fst (RiskAnalysisAgent_analyze repr_str net self clause_data w) = inr v
    /\ fst (ComplianceAnalysisAgent_analyze repr_str net self clause_data rules w)
       = inr v.

Definition net_replying (content : pystr) (n : nat) (req : http_request)
  : http_outcome :=
  completion (PStr content).

(** ** The window: showing the results, saving the report, loading a
    contract

    What the handlers of [ContractReviewApp] do to the widgets and to the
    files is a log of their own; the state is what the handlers read of the
    window. *)

Inductive widget :=
| ClauseContent | RiskText | ComplianceText | ReportText | AccuracyText
| ContractTextEdit | FilePathLabel.

Inductive box_kind := Information | Warning | Critical.

Inductive gui_event :=
| ClauseListClear                              (* clause_list.clear *)
| ClauseListAddItem (label : pystr)            (* clause_list.addItem *)
| ClauseListSetCurrentRow (row : Z)            (* clause_list.setCurrentRow *)
| SetText (w : widget) (s : pystr)             (* <widget>.setText *)
| SaveActionSetEnabled (b : bool)              (* save_action.setEnabled *)
| ProcessButtonSetEnabled (b : bool)           (* process_button.setEnabled *)
| StatusBarMessage (s : pystr)                 (* statusBar().showMessage *)
| MessageBox (kind : box_kind) (title message : pystr)
| FileWritten (path content : pystr).          (* open(path, 'w') and write *)

Record window := Window {
  win_results : option pydict;   (* [self.results]; absent before a run ends *)
  win_contract_text : pystr;     (* [self.contract_text] *)
  win_clause_items : list pystr; (* the items of [clause_list] *)
  win_log : list gui_event
}.

Definition W (A : Type) : Type := window -> (exn + A) * window.

Definition wret {A} (a : A) : W A := fun w => (inr a, w).

Definition wbind {A B} (m : W A) (k : A -> W B) : W B :=
  fun w =>
    match m w with
    | (inr a, w') => k a w'
    | (inl e, w') => (inl e, w')
    end.

Definition wlift {A} (r : exn + A) : W A := fun w => (r, w).

Definition wtry {A} (body : W A) (handler : exn -> W A) : W A :=
  fun w =>
    match body w with
    | (inr a, w') => (inr a, w')
    | (inl e, w') => handler e w'
    end.

Definition wemit (e : gui_event) : W unit :=
  fun w =>
    (inr tt,
     Window (win_results w) (win_contract_text w) (win_clause_items w)
            (win_log w ++ [e])).

Definition set_results (results : pydict) : W unit :=
  fun w =>
    (inr tt,
     Window (Some results) (win_contract_text w) (win_clause_items w) (win_log w)).

Definition set_contract_text (s : pystr) : W unit :=
  fun w =>
    (inr tt, Window (win_results w) s (win_clause_items w) (win_log w)).

Definition set_clause_items (items : list pystr) : W unit :=
  fun w =>
    (inr tt, Window (win_results w) (win_contract_text w) items (win_log w)).

(** [self.results]: an [AttributeError] when the attribute is not set. *)
Definition get_results : W pydict :=
  fun w =>
    match win_results w with
    | Some results => (inr results, w)
    | None =>
        (inl (Exn AttributeError
                (u "'ContractReviewApp' object has no attribute 'results'")), w)
    end.

Definition get_clause_items : W (list pystr) :=
  fun w => (inr (win_clause_items w), w).

Declare Scope window_scope.
Delimit Scope window_scope with window.
Notation "x <- c ;; k" := (wbind c (fun x => k))
  (at level 61, c at next level, right associativity) : window_scope.
Notation "c ;; k" := (wbind c (fun _ => k))
  (at level 61, right associativity) : window_scope.

Definition no_attribute (v : pyval) (name : pystr) : exn :=
  Exn AttributeError
    (u "'" ++ type_name v ++ u "' object has no attribute '" ++ name ++ u "'").

(** [v.keys()] *)
Definition py_keys (v : pyval) : exn + list pystr :=
  match v with
  | PDict d => inr (map fst d)
  | _ => inl (no_attribute v (u "keys"))
  end.

(** [v.get(k, default)] *)
Definition py_get (v : pyval) (k : pystr) (default : pyval) : exn + pyval :=
  match v with
  | PDict d => inr (dict_get_default d k default)
  | _ => inl (no_attribute v (u "get"))
  end.

(** [sep.join(items)]: every item has to be a [str]. *)
Fixpoint py_join_from (i : nat) (sep : pystr) (items : list pyval)
  : exn + pystr :=
  match items with
  | [] => inr []
  | PStr s :: rest =>
      match rest with
      | [] => inr s
      | _ :: _ =>
          match py_join_from (S i) sep rest with
          | inr t => inr (s ++ sep ++ t)
          | inl e => inl e
          end
      end
  | v :: _ =>
      inl (Exn TypeError
             (u "sequence item " ++ str_of_Z (Z.of_nat i)
                ++ u ": expected str instance, " ++ type_name v ++ u " found"))
  end.

Definition py_join (sep : pystr) (items : list pyval) : exn + pystr :=
  py_join_from 0 sep items.

Section Window.

(** What the program leaves to Python, to Qt and to the files: [repr] of a
    [str]; the text Qt makes of an argument of [setText], or its refusal;
    [os.path.splitext(p)[1].lower()] and [os.path.basename(p)]; writing a
    text file; reading a text file, the paragraphs of a Word document and
    the text of each page of a PDF document. *)
Variable repr_str : pystr -> pystr.
Variable qt_text : pyval -> exn + pystr.
Variable file_ext : pystr -> pystr.
Variable basename : pystr -> pystr.
Variable write_file : pystr -> pystr -> exn + unit.
Variable read_text : pystr -> exn + pystr.
Variable read_docx : pystr -> exn + list pystr.
Variable read_pdf : pystr -> exn + list pyval.

Local Open Scope window_scope.

Definition set_text (w : widget) (v : pyval) : W unit :=
  s <- wlift (qt_text v) ;;
  wemit (SetText w s).

(** [json.dumps(v, ensure_ascii=False, indent=2)] for a mapping or a
    sequence, the value itself otherwise. *)
Definition shown (v : pyval) : pyval :=
  if is_container v then PStr (json_dumps false (Some 2) v) else v.

(** [ContractReviewApp.show_clause_content], for the text of the item. *)
Definition show_clause_content (clause_type : pystr) : W unit :=
  results <- get_results ;;
  let clause_data := dict_get_default results KEY_CLAUSES (PDict []) in
  content <- wlift (py_get clause_data clause_type (PStr [])) ;;
  set_text ClauseContent (shown content).

Fixpoint add_items (keys : list pystr) : W unit :=
  match keys with
  | [] => wret tt
  | k :: keys' =>
      wemit (ClauseListAddItem k) ;;
      items <- get_clause_items ;;
      set_clause_items (items ++ [k]) ;;
      add_items keys'
  end.

(** [ContractReviewApp.update_clause_tab] *)
Definition update_clause_tab : W unit :=
  results <- get_results ;;
  let clause_data := dict_get_default results KEY_CLAUSES (PDict []) in
  wemit ClauseListClear ;;
  set_clause_items [] ;;
  keys <- wlift (py_keys clause_data) ;;
  add_items keys ;;
  items <- get_clause_items ;;
  match items with
  | [] => wret tt
  | first :: _ =>
      wemit (ClauseListSetCurrentRow 0) ;;
      show_clause_content first
  end.

(** [ContractReviewApp.update_risk_tab] *)
Definition update_risk_tab : W unit :=
  results <- get_results ;;
  let risk_data := dict_get_default results KEY_RISK (PDict []) in
  set_text RiskText (shown risk_data).

(** [ContractReviewApp.update_compliance_tab] *)
Definition update_compliance_tab : W unit :=
  results <- get_results ;;
  let compliance_data := dict_get_default results KEY_COMPLIANCE (PDict []) in
  set_text ComplianceText (shown compliance_data).

(** [ContractReviewApp.update_report_tab] *)
Definition update_report_tab : W unit :=
  results <- get_results ;;
  set_text ReportText (dict_get_default results KEY_REPORT (PStr [])).

(** [ContractReviewApp.update_accuracy_tab] *)
Definition update_accuracy_tab : W unit :=
  results <- get_results ;;
  set_text AccuracyText (dict_get_default results KEY_ACCURACY (PStr [])).

(** [ContractReviewApp.processing_finished] *)
Definition processing_finished (results : pydict) : W unit :=
  set_results results ;;
  update_clause_tab ;;
  update_risk_tab ;;
  update_compliance_tab ;;
  update_report_tab ;;
  update_accuracy_tab ;;
  wemit (SaveActionSetEnabled true) ;;
  wemit (ProcessButtonSetEnabled true) ;;
  wemit (StatusBarMessage (u "合同审核完成")) ;;
  wemit (MessageBox Information (u "处理完成")
           (u "合同审核已完成，请查看各标签页结果")).

(** [ContractReviewApp.processing_error] *)
Definition processing_error (error_msg : pystr) : W unit :=
  wemit (MessageBox Critical (u "处理错误") error_msg) ;;
  wemit (ProcessButtonSetEnabled true) ;;
  wemit (StatusBarMessage (u "处理过程中发生错误")).

(** [with open(file_path, 'w', encoding='utf-8') as file: file.write(content)] *)
Definition open_write (file_path content : pystr) : W unit :=
  wlift (write_file file_path content) ;;
  wemit (FileWritten file_path content).

(** [markdown.markdown]: [markdown] is the function that
    [from markdown import markdown] binds, and a function has no such
    attribute. *)
Definition markdown_markdown (report_content : pystr) : exn + pystr :=
  inl (Exn AttributeError (u "'function' object has no attribute 'markdown'")).

(** [ContractReviewApp.save_report], with the path the dialog returns (empty
    when the dialog is cancelled) and the time read by the exporter. *)
Definition save_report (file_path : pystr) (now : datetime) : W unit :=
  fun w =>
    match win_results w with
    | None =>
        wemit (MessageBox Warning (u "没有报告") (u "请先处理合同生成报告")) w
    | Some results =>
        match file_path with
        | [] => wret tt w
        | _ :: _ =>
            wtry
              (let ext := file_ext file_path in
               report_content <-
                 wlift (generate_combined_report repr_str results now) ;;
               (if pystr_eqb ext (u ".html") then
                  html_content <- wlift (markdown_markdown report_content) ;;
                  open_write file_path html_content
                else open_write file_path report_content) ;;
               wemit (StatusBarMessage (u "报告已保存到: " ++ file_path)) ;;
               wemit (MessageBox Information (u "保存成功")
                        (u "报告已成功保存到: " ++ file_path)))
              (fun e =>
                 wemit (MessageBox Critical (u "保存失败")
                          (u "保存报告时出错: " ++ exn_str e)) ;;
                 wemit (StatusBarMessage (u "保存报告失败")))
              w
        end
    end.

(** The text [load_contract] reads, by the extension of the file; [None]
    for an extension that is not supported. *)
Definition read_contract (file_path : pystr) : exn + option pystr :=
  let ext := file_ext file_path in
  if pystr_eqb ext (u ".txt") then
    match read_text file_path with
    | inr s => inr (Some s)
    | inl e => inl e
    end
  else if pystr_eqb ext (u ".docx") then
    match read_docx file_path with
    | inr paragraphs =>
        match py_join [NL] (map PStr paragraphs) with
        | inr s => inr (Some s)
        | inl e => inl e
        end
    | inl e => inl e
    end
  else if pystr_eqb ext (u ".pdf") then
    match read_pdf file_path with
    | inr pages =>
        match py_join [NL] pages with
        | inr s => inr (Some s)
        | inl e => inl e
        end
    | inl e => inl e
    end
  else inr None.

(** [ContractReviewApp.load_contract] *)
Definition load_contract (file_path : pystr) : W unit :=
  wtry
    (read <- wlift (read_contract file_path) ;;
     match read with
     | None =>
         wemit (MessageBox Warning (u "文件类型错误") (u "不支持的文件类型"))
     | Some s =>
         set_contract_text s ;;
         set_text ContractTextEdit (PStr s) ;;
         wemit (StatusBarMessage (u "已加载合同: " ++ basename file_path))
     end)
    (fun e =>
       wemit (MessageBox Critical (u "错误") (u "加载文件时出错: " ++ exn_str e)) ;;
       wemit (StatusBarMessage (u "加载文件失败"))).

(** [ContractReviewApp.browse_file], with the path the dialog returns. *)
Definition browse_file (file_path : pystr) : W unit :=
  match file_path with
  | [] => wret tt
  | _ :: _ =>
      set_text FilePathLabel (PStr file_path) ;;
      load_contract file_path
  end.

End Window.

Definition new_window : window := Window None [] [] [].

Definition is_file_written (e : gui_event) : bool :=
  match e with FileWritten _ _ => true | _ => false end.

(** Replies for the examples: a JSON array, and Qt taking strings only. *)
Definition net_array (n : nat) (req : http_request) : http_outcome :=
  completion (PStr (u "[1, 2]")).

Definition strings_only (v : pyval) : exn + pystr :=
  match v with
  | PStr s => inr s
  | _ => inl (Exn TypeError (u "setText called with wrong argument types"))
  end.

(** The extension of a path whose name has one dot, in lower case, for
    paths in ASCII. *)
Fixpoint after_last_dot (acc : option pystr) (p : pystr) : pystr :=
  match p with
  | [] => match acc with Some e => e | None => [] end
  | c :: p' =>
      if (c =? 46)%N then after_last_dot (Some [c]) p'
      else
        after_last_dot
          (match acc with
           | Some e =>
               Some (e ++ [if ((65 <=? c) && (c <=? 90))%N then (c + 32)%N else c])
           | None => None
           end) p'
  end.

Definition example_ext (p : pystr) : pystr := after_last_dot None p.

Definition disk_ok (path content : pystr) : exn + unit := inr tt.

Definition text_file (path : pystr) : exn + pystr := inr example_contract.

Definition docx_file (path : pystr) : exn + list pystr :=
  inr [u "甲方：张三"; u "乙方：李四"].

(** A PDF whose second page has no text. *)
Definition pdf_with_empty_page (path : pystr) : exn + list pyval :=
  inr [PStr (u "第一页"); PNone].

Definition text_of (v : pyval) : pystr :=
  match v with PStr s => s | _ => [] end.

(** What [update_clause_tab] does after it has filled the list: it selects
    the first clause and shows its content. *)
Definition first_clause_events (d : pydict) : list gui_event :=
  match d with
  | [] => []
  | (_, v) :: _ => [ClauseListSetCurrentRow 0; SetText ClauseContent (text_of (shown v))]
  end.
(** * Properties *)

(** ** Strings *)

Lemma pystr_eqb_eq (a b : pystr) : pystr_eqb a b = true <-> a = b.
Proof.
  unfold pystr_eqb. destruct (list_eq_dec N.eq_dec a b); split; congruence.
Qed.

Lemma pystr_eqb_refl (a : pystr) : pystr_eqb a a = true.
Proof. now apply pystr_eqb_eq. Qed.

Example u_chinese : u "解析错误" = [35299; 26512; 38169; 35823]%N.
Proof. reflexivity. Qed.

Example replace_ex1 :
  replace FENCE [] (u "a```b````c``") = u "ab`c``".
Proof. reflexivity. Qed.

Example strip_ex1 : strip (u "  a b
 ") = u "a b".
Proof. reflexivity. Qed.

Example str_of_Z_ex : str_of_Z 201 = u "201" /\ str_of_Z 0 = u "0" /\ str_of_Z (-5) = u "-5".
Proof. repeat split; reflexivity. Qed.

(** ** [call_api] *)

Section CallApiFacts.

Variable net : nat -> http_request -> http_outcome.

Lemma call_api_eq (self : Agent) (prompt system_prompt : pystr) (w : world) :
  call_api net self prompt system_prompt w =
  (inr (api_reply (net (requests_made w) (api_request self prompt system_prompt))),
   World (S (requests_made w))
         (log w ++ [HttpPost (api_request self prompt system_prompt)])).
Proof.
  unfold call_api, try_except, bind, requests_post, lift, ret, api_reply.
  fold (api_request self prompt system_prompt).
  destruct (net (requests_made w) (api_request self prompt system_prompt))
    as [r | msg]; cbn [exn_str]; [| reflexivity].
  destruct (status_code r =? 200)%Z; [| reflexivity].
  destruct (json_loads (text r)) as [e | body]; [reflexivity |].
  destruct (completion_content body) as [e | content]; reflexivity.
Qed.

End CallApiFacts.

(** ** The events of a run: proofs *)

Section RunFacts.

Variable repr_str : pystr -> pystr.
Variable net : nat -> http_request -> http_outcome.
Variable api_config : APIConfig.
Variable contract_text : pystr.

Lemma app_cons_assoc {A} (l : list A) (x : A) (l' : list A) :
  (l ++ [x]) ++ l' = l ++ x :: l'.
Proof. now rewrite <- app_assoc. Qed.

(** Every run goes through its five stages and completes. *)
Lemma run_eq (w : world) :
  run repr_str net api_config contract_text w =
  (inr tt, World (5 + requests_made w) (log w ++ run_events repr_str net api_config contract_text (requests_made w))).
Proof.
  cbv beta iota zeta delta
    [run try_except bind invoke emit ret requests_made log
     ClauseExtractionAgent_analyze RiskAnalysisAgent_analyze
     ComplianceAnalysisAgent_analyze ReportGenerationAgent_generate
     AccuracyCheckAgent_check].
  repeat (rewrite call_api_eq;
          cbv beta iota zeta delta [requests_made log]).
  f_equal. f_equal.
  rewrite <- !app_assoc. reflexivity.
Qed.

Lemma run_events_of :
  events_of (run repr_str net api_config contract_text) =
  run_events repr_str net api_config contract_text 0.
Proof. unfold events_of. rewrite run_eq. reflexivity. Qed.


End RunFacts.

(** ** Stripping and decoding: first facts *)

Lemma lstrip_app_nonspace (l : pystr) (c : N) :
  py_isspace c = false -> exists l', lstrip (l ++ [c]) = l' ++ [c].
Proof.
  intro Hc. induction l as [| a l IH]; simpl.
  - rewrite Hc. now exists [].
  - destruct (py_isspace a).
    + exact IH.
    + now exists (a :: l).
Qed.

Lemma strip_cons_nonspace (c : N) (s : pystr) :
  py_isspace c = false -> exists s', strip (c :: s) = c :: s'.
Proof.
  intro Hc. unfold strip, rstrip. simpl lstrip. rewrite Hc. simpl rev.
  destruct (lstrip_app_nonspace (rev s) c Hc) as [l' ->].
  exists (rev l'). now rewrite rev_app_distr.
Qed.

Lemma replace_cons_other (o : N) (old' new : pystr) (c : N) (s : pystr) :
  c <> o ->
  replace (o :: old') new (c :: s) = c :: replace (o :: old') new s.
Proof.
  intro Hne. unfold replace. simpl.
  destruct (N.eqb_spec o c) as [-> |]; [congruence | reflexivity].
Qed.

Lemma strip_fences_cons (c : N) (s : pystr) :
  py_isspace c = false -> c <> BACKTICK ->
  exists s', strip_fences (c :: s) = c :: s'.
Proof.
  intros Hs Hb. unfold strip_fences.
  destruct (strip_cons_nonspace c s Hs) as [s1 ->].
  unfold FENCE_JSON, FENCE.
  rewrite !replace_cons_other by exact Hb. eauto.
Qed.

Lemma json_feed_cons (st : jstate) (c : N) (s : pystr) :
  json_feed st (c :: s) = json_feed (step st c) s.
Proof. reflexivity. Qed.

Lemma json_feed_app (st : jstate) (s t : pystr) :
  json_feed st (s ++ t) = json_feed (json_feed st s) t.
Proof. apply fold_left_app. Qed.

Lemma json_feed_err (msg : pystr) (back fed : nat) (s : pystr) :
  json_feed (JErr msg back fed) s = JErr msg back (length s + fed).
Proof.
  revert fed. induction s as [| c s IH]; intro fed; [reflexivity |].
  rewrite json_feed_cons. simpl step. rewrite IH. f_equal. simpl. lia.
Qed.

(** A document whose first character cannot start a value is rejected. *)
Lemma json_loads_bad_start (c : N) (s : pystr) :
  c <> BOM ->
  (exists msg back, step json_init c = JErr msg back 0) ->
  exists e, json_loads (c :: s) = inl e.
Proof.
  intros Hbom (msg & back & Hstep). unfold json_loads.
  change (startswith [BOM] (c :: s)) with ((BOM =? c)%N && true).
  destruct (N.eqb_spec BOM c) as [E |]; [congruence |].
  cbn [andb]. rewrite json_feed_cons, Hstep, json_feed_err.
  cbn [finish]. eexists. reflexivity.
Qed.

Section ParseResponseFacts.

Variable repr_str : pystr -> pystr.

(** The error string of a failed transport is not JSON: the stage that
    gets it yields the error record. *)
Lemma parse_response_api_exception (msg : pystr) :
  parse_response repr_str (PStr (API_EXCEPTION ++ msg)) =
  PDict [(ERROR_KEY, PStr (ERROR_PREFIX ++ strip_fences (API_EXCEPTION ++ msg)))].
Proof.
  unfold parse_response, parse_block.
  change (API_EXCEPTION ++ msg) with (65%N :: tl API_EXCEPTION ++ msg).
  destruct (strip_fences_cons 65%N (tl API_EXCEPTION ++ msg)) as [s' Hs'];
    [reflexivity | discriminate |].
  rewrite Hs'.
  destruct (json_loads_bad_start 65%N s') as [e ->].
  - discriminate.
  - now exists EXPECTING_VALUE, 0.
  - reflexivity.
Qed.

End ParseResponseFacts.

(** ** The decoder and its control state *)

Lemma deliver_sim (stk stk' : list frame) (v v' : pyval) :
  map frame_shape stk = map frame_shape stk' ->
  shape_of (deliver stk v) = shape_of (deliver stk' v').
Proof.
  intro H.
  destruct stk as [| [items | pairs [key |]] stk];
    destruct stk' as [| [items' | pairs' [key' |]] stk'];
    simpl in H; try discriminate H; try reflexivity;
    injection H as H; simpl; rewrite ?H; reflexivity.
Qed.

Lemma bad_after_sim (stk stk' : list frame) (back : nat) :
  map frame_shape stk = map frame_shape stk' ->
  shape_of (bad_after stk back) = shape_of (bad_after stk' back).
Proof.
  intro H. destruct stk, stk'; simpl in H; try discriminate H; reflexivity.
Qed.

Lemma step_after_sim (st st' : jstate) (c : N) :
  shape_of st = shape_of st' ->
  shape_of (step_after st c) = shape_of (step_after st' c).
Proof.
  intro H.
  destruct st as [stk m | v | msg b a]; destruct st' as [stk' m' | v' | msg' b' a'];
    simpl in H; try discriminate H.
  - injection H as Hs Hm.
    destruct m; destruct m'; simpl in Hm; try discriminate Hm;
      destruct stk as [| [items | pairs [key |]] stk];
      destruct stk' as [| [items' | pairs' [key' |]] stk'];
      simpl in Hs; try discriminate Hs; try reflexivity;
      injection Hs as Hs; simpl;
      destruct (is_json_ws c); simpl; try (now rewrite Hs);
      destruct (c =? 44)%N; simpl; try (now rewrite Hs).
    + destruct (c =? 93)%N; [now apply deliver_sim | reflexivity].
    + destruct (c =? 125)%N; [now apply deliver_sim | reflexivity].
  - simpl. now destruct (is_json_ws c).
  - reflexivity.
Qed.

Ltac split_tests :=
  repeat match goal with
         | |- context [if ?b then _ else _] => destruct b
         end.

Lemma start_value_sim (stk stk' : list frame) (first : bool) (c : N) :
  map frame_shape stk = map frame_shape stk' ->
  shape_of (start_value stk first c) = shape_of (start_value stk' first c).
Proof.
  intro H. unfold start_value.
  destruct (is_json_ws c); [simpl; rewrite ?H; reflexivity |].
  destruct (c =? 34)%N; [simpl; rewrite ?H; reflexivity |].
  destruct (c =? 123)%N; [simpl; rewrite ?H; reflexivity |].
  destruct (c =? 91)%N; [simpl; rewrite ?H; reflexivity |].
  destruct ((c =? 93)%N && first).
  { destruct stk as [| [items | pairs [key |]] stk];
      destruct stk' as [| [items' | pairs' [key' |]] stk'];
      simpl in H; try discriminate H; try reflexivity.
    injection H as H. now apply deliver_sim. }
  split_tests; simpl; rewrite ?H; reflexivity.
Qed.

Lemma start_key_sim (stk stk' : list frame) (first : bool) (c : N) :
  map frame_shape stk = map frame_shape stk' ->
  shape_of (start_key stk first c) = shape_of (start_key stk' first c).
Proof.
  intro H. unfold start_key.
  destruct (is_json_ws c); [simpl; rewrite ?H; reflexivity |].
  destruct (c =? 34)%N; [simpl; rewrite ?H; reflexivity |].
  destruct ((c =? 125)%N && first); [| reflexivity].
  destruct stk as [| [items | pairs [key |]] stk];
    destruct stk' as [| [items' | pairs' [key' |]] stk'];
    simpl in H; try discriminate H; try reflexivity.
  injection H as H. now apply deliver_sim.
Qed.

Lemma end_string_sim (stk stk' : list frame) (is_key : bool) (s s' : pystr) :
  map frame_shape stk = map frame_shape stk' ->
  shape_of (end_string stk is_key s) = shape_of (end_string stk' is_key s').
Proof.
  intro H. unfold end_string. destruct is_key; [| now apply deliver_sim].
  destruct stk as [| [items | pairs [key |]] stk];
    destruct stk' as [| [items' | pairs' [key' |]] stk'];
    simpl in H; try discriminate H; try reflexivity.
  injection H as H. simpl. now rewrite H.
Qed.

Lemma step_num_sim (stk stk' : list frame) (ns : numstate) (lit lit' : pystr)
  (c : N) :
  map frame_shape stk = map frame_shape stk' ->
  shape_of (step_num stk ns lit c) = shape_of (step_num stk' ns lit' c).
Proof.
  intro H.
  assert (Hc : forall v v',
             shape_of (step_after (deliver stk v) c)
             = shape_of (step_after (deliver stk' v') c)).
  { intros v v'. apply step_after_sim. now apply deliver_sim. }
  unfold step_num. destruct ns; split_tests;
    try (simpl; rewrite ?H; reflexivity); try apply Hc; now apply bad_after_sim.
Qed.

(** The control state after a character depends on the control state
    before it only. *)
Lemma step_sim (st st' : jstate) (c : N) :
  shape_of st = shape_of st' ->
  shape_of (step st c) = shape_of (step st' c).
Proof.
  intro H.
  destruct st as [stk m | v | msg b a]; destruct st' as [stk' m' | v' | msg' b' a'];
    simpl in H; try discriminate H;
    try (apply step_after_sim; exact H).
  injection H as Hs Hm.
  destruct m; destruct m'; simpl in Hm; try discriminate Hm;
    try injection Hm as Hm; subst; unfold step.
  - now apply start_value_sim.
  - now apply start_key_sim.
  - split_tests; simpl; rewrite ?Hs; reflexivity.
  - apply step_after_sim. simpl. now rewrite Hs.
  - destruct (c =? 34)%N; [now apply end_string_sim |].
    split_tests; simpl; rewrite ?Hs; reflexivity.
  - destruct (unescape c); split_tests; simpl; rewrite ?Hs; reflexivity.
  - destruct (hex_value c); split_tests; simpl; rewrite ?Hs; reflexivity.
  - now apply step_num_sim.
  - destruct (nth_error (literal_text l0) n0); [| reflexivity].
    destruct (c =? n)%N; [| reflexivity].
    destruct (Nat.eqb (S n0) (length (literal_text l0)));
      [now apply deliver_sim | simpl; rewrite ?Hs; reflexivity].
Qed.

Lemma feed_sim (s : pystr) (st st' : jstate) :
  shape_of st = shape_of st' ->
  shape_of (json_feed st s) = shape_of (json_feed st' s).
Proof.
  revert st st'. induction s as [| c s IH]; intros st st' H; [exact H |].
  rewrite !json_feed_cons. apply IH. now apply step_sim.
Qed.

Lemma accepted_sim (st st' : jstate) :
  shape_of st = shape_of st' -> accepted st = accepted st'.
Proof.
  intro H. unfold accepted.
  destruct st as [stk m | v | msg b a]; destruct st' as [stk' m' | v' | msg' b' a'];
    simpl in H; try discriminate H; try reflexivity.
  injection H as Hs Hm.
  destruct m; destruct m'; simpl in Hm; try discriminate Hm; try reflexivity.
  injection Hm as Hn. subst.
  match goal with |- context [MNum ?x _] => destruct x end; try reflexivity;
    destruct stk, stk'; simpl in Hs; try discriminate Hs; reflexivity.
Qed.

Lemma shape_err_inv (st : jstate) :
  shape_of st = ShErr -> exists msg back fed, st = JErr msg back fed.
Proof. destruct st; simpl; intro H; try discriminate H. eauto. Qed.

Lemma feed_err_shape (st : jstate) (s : pystr) :
  shape_of st = ShErr -> shape_of (json_feed st s) = ShErr.
Proof.
  intro H. destruct (shape_err_inv st H) as (msg & back & fed & ->).
  now rewrite json_feed_err.
Qed.

Lemma accepted_not_err (st : jstate) :
  accepted st = true -> shape_of st <> ShErr.
Proof.
  intros Ha He. destruct (shape_err_inv st He) as (msg & back & fed & ->).
  discriminate Ha.
Qed.

Lemma feed_not_err (st : jstate) (s : pystr) :
  shape_of (json_feed st s) <> ShErr -> shape_of st <> ShErr.
Proof. intros H He. apply H. now apply feed_err_shape. Qed.

Lemma literal_char_not_backtick (l : literal) (n : nat) (r : N) :
  nth_error (literal_text l) n = Some r -> r <> BACKTICK.
Proof.
  intros H E. subst r.
  destruct l; simpl in H;
    do 10 (destruct n as [| n]; simpl in H; try discriminate H).
Qed.

(** Outside a string a backtick is an error. *)
Lemma backtick_in_string (st : jstate) :
  shape_of (step st BACKTICK) <> ShErr ->
  exists stk is_key n acc, st = JRun stk (MStr is_key n acc).
Proof.
  intro H.
  destruct st as [stk m | v | msg b a]; [| now elim H | now elim H].
  destruct m; try (now elim H); try (now eauto).
  - exfalso. apply H. now destruct stk as [| [items | pairs [key |]] stk].
  - exfalso. apply H. unfold step, step_num, BACKTICK.
    destruct ns; simpl;
      destruct stk as [| [items | pairs [key |]] stk]; reflexivity.
  - exfalso. apply H. unfold step.
    destruct (nth_error (literal_text l) n) as [r |] eqn:E; [| reflexivity].
    apply literal_char_not_backtick in E.
    destruct (N.eqb_spec BACKTICK r); [congruence | reflexivity].
Qed.

Lemma step_plain (stk : list frame) (is_key : bool) (n : nat)
  (acc : list (N * bool)) (c : N) :
  plain_char c = true ->
  step (JRun stk (MStr is_key n acc)) c
  = JRun stk (MStr is_key (S n) ((c, false) :: acc)).
Proof.
  unfold plain_char. intro H.
  apply andb_prop in H as [H H92]. apply andb_prop in H as [H32 H34].
  apply negb_true_iff in H92, H34. apply N.leb_le in H32.
  simpl. rewrite H34, H92.
  destruct (N.ltb_spec c 32); [lia | reflexivity].
Qed.

Lemma feed_plain (p : pystr) (stk : list frame) (is_key : bool) (n : nat)
  (acc : list (N * bool)) :
  forallb plain_char p = true ->
  json_feed (JRun stk (MStr is_key n acc)) p
  = JRun stk (MStr is_key (length p + n) (rev (map (fun c => (c, false)) p) ++ acc)).
Proof.
  revert n acc. induction p as [| c p IH]; intros n acc H; [reflexivity |].
  simpl in H. apply andb_prop in H as [Hc Hp].
  rewrite json_feed_cons, step_plain, IH by assumption.
  simpl. rewrite <- app_assoc. do 2 f_equal. lia.
Qed.

(** A text that starts with a backtick and goes on with characters that
    stand for themselves is read inside a string only, and leaves the
    control state as it was. *)
Lemma feed_pattern (p : pystr) (st : jstate) :
  forallb plain_char p = true ->
  shape_of (json_feed st (BACKTICK :: p)) <> ShErr ->
  shape_of (json_feed st (BACKTICK :: p)) = shape_of st.
Proof.
  intros Hp H. rewrite json_feed_cons in *.
  destruct (backtick_in_string st (feed_not_err _ _ H))
    as (stk & is_key & n & acc & ->).
  rewrite step_plain by reflexivity. now rewrite feed_plain.
Qed.

(** ** White space and the decoder *)

Lemma is_json_ws_cases (c : N) :
  is_json_ws c = true -> c = 32%N \/ c = 9%N \/ c = 10%N \/ c = 13%N.
Proof.
  unfold is_json_ws. intro H.
  repeat (apply orb_prop in H as [H | H]); apply N.eqb_eq in H; auto.
Qed.

Lemma is_json_ws_space (c : N) : is_json_ws c = true -> py_isspace c = true.
Proof.
  intro H. destruct (is_json_ws_cases c H) as [-> | [-> | [-> | ->]]]; reflexivity.
Qed.

(** White space is outside the printable ASCII characters. *)
Lemma space_range (c : N) : py_isspace c = true -> (c <= 32 \/ 133 <= c)%N.
Proof.
  unfold py_isspace. intro H.
  repeat match type of H with
         | (_ || _) = true => apply orb_prop in H as [H | H]
         | (_ && _) = true => apply andb_prop in H as [H ?]
         end;
    repeat match goal with
           | H : (_ <=? _)%N = true |- _ => apply N.leb_le in H
           | H : (_ =? _)%N = true |- _ => apply N.eqb_eq in H
           end; lia.
Qed.

Lemma space_eqb (c k : N) :
  py_isspace c = true -> (33 <= k <= 126)%N -> (c =? k)%N = false.
Proof.
  intros H Hk. apply space_range in H. apply N.eqb_neq. lia.
Qed.

Lemma space_not_digit (c : N) : py_isspace c = true -> is_digit c = false.
Proof.
  intro H. apply space_range in H. unfold is_digit.
  destruct (N.leb_spec 48 c); destruct (N.leb_spec c 57); try reflexivity; lia.
Qed.

Lemma space_not_hex (c : N) : py_isspace c = true -> hex_value c = None.
Proof.
  intro H. unfold hex_value. rewrite (space_not_digit c H).
  apply space_range in H.
  destruct (N.leb_spec 97 c); destruct (N.leb_spec c 102);
    destruct (N.leb_spec 65 c); destruct (N.leb_spec c 70);
    try reflexivity; lia.
Qed.

Lemma space_not_escape (c : N) : py_isspace c = true -> unescape c = None.
Proof.
  intro H. unfold unescape.
  rewrite !(space_eqb c _ H) by lia. reflexivity.
Qed.

Lemma literal_char_range (l : literal) (n : nat) (r : N) :
  nth_error (literal_text l) n = Some r -> (33 <= r <= 126)%N.
Proof.
  intro H.
  destruct l; simpl in H;
    do 10 (destruct n as [| n]; simpl in H;
           try discriminate H; try (injection H as <-; lia)).
Qed.

Ltac space_tests c H :=
  rewrite ?(space_not_digit c H), ?(space_not_hex c H), ?(space_not_escape c H);
  repeat match goal with
         | |- context [(c =? ?k)%N] => rewrite (space_eqb c k H) by lia
         end.

(** White space that is not JSON white space is an error everywhere but in
    a string, where it does not end the string. *)
Lemma step_other_space (c : N) (st : jstate) :
  py_isspace c = true -> is_json_ws c = false ->
  shape_of (step st c) = ShErr
  \/ exists stk is_key n acc m,
       st = JRun stk (MStr is_key n acc)
       /\ step st c = JRun stk m
       /\ (exists n' acc', m = MStr is_key n' acc').
Proof.
  intros Hsp Hws.
  destruct st as [stk m | v | msg b a].
  2:{ left. simpl. now rewrite Hws. }
  2:{ left. reflexivity. }
  destruct m.
  - left. unfold step, start_value. rewrite Hws. space_tests c Hsp.
    reflexivity.
  - left. unfold step, start_key. rewrite Hws. space_tests c Hsp. reflexivity.
  - left. unfold step. rewrite Hws. space_tests c Hsp. reflexivity.
  - left. unfold step, step_after.
    destruct stk as [| [items | pairs [key |]] stk]; try reflexivity;
      rewrite Hws; space_tests c Hsp; reflexivity.
  - unfold step. space_tests c Hsp.
    destruct (c <? 32)%N; [now left |].
    right. exists stk, is_key, n, acc_rev. eexists. split; [reflexivity |].
    split; [reflexivity |]. eauto.
  - left. unfold step. space_tests c Hsp. reflexivity.
  - left. unfold step. space_tests c Hsp. reflexivity.
  - left. unfold step, step_num, is_exp_char.
    assert (Hc : forall v, shape_of (step_after (deliver stk v) c) = ShErr).
    { intro v. unfold step_after.
      destruct stk as [| [items | pairs [key |]] stk]; simpl;
        rewrite ?Hws; space_tests c Hsp; reflexivity. }
    destruct ns; space_tests c Hsp; simpl; try apply Hc;
      try reflexivity; now destruct stk.
  - left. unfold step.
    destruct (nth_error (literal_text l) n) as [r |] eqn:E; [| reflexivity].
    apply literal_char_range in E.
    rewrite (space_eqb c r Hsp E). reflexivity.
Qed.

(** White space after a complete document keeps its value. *)
Lemma ws_keeps_value (st : jstate) (c : N) (v : pyval) :
  is_json_ws c = true -> finish st = inr v -> finish (step st c) = inr v.
Proof.
  intros Hws H.
  destruct st as [stk m | v0 | msg b a]; try discriminate H.
  - destruct m; try discriminate H.
    destruct ns; try discriminate H;
      destruct stk; try discriminate H;
      destruct (is_json_ws_cases c Hws) as [-> | [-> | [-> | ->]]];
      exact H.
  - simpl. rewrite Hws. exact H.
Qed.

(** A document that is complete after white space was complete before it,
    with the same value, and the white space is JSON white space. *)
Lemma space_before_end (st : jstate) (c : N) (v : pyval) :
  py_isspace c = true -> finish (step st c) = inr v ->
  finish st = inr v /\ is_json_ws c = true.
Proof.
  intros Hsp H.
  destruct (is_json_ws c) eqn:Hws.
  - split; [| reflexivity].
    destruct st as [stk m | v0 | msg b a].
    + destruct m;
        try (destruct (is_json_ws_cases c Hws) as [-> | [-> | [-> | ->]]];
             simpl in H; discriminate H).
      * exfalso.
        destruct (is_json_ws_cases c Hws) as [-> | [-> | [-> | ->]]];
          destruct stk as [| [items | pairs [key |]] stk]; discriminate H.
      * destruct (is_json_ws_cases c Hws) as [-> | [-> | [-> | ->]]];
          destruct ns;
          destruct stk as [| [items | pairs [key |]] stk];
          try discriminate H; exact H.
      * exfalso. revert H. unfold step.
        destruct (nth_error (literal_text l) n) as [r |] eqn:E; [| discriminate].
        apply literal_char_range in E.
        rewrite (space_eqb c r Hsp E). discriminate.
    + revert H. simpl. now rewrite Hws.
    + discriminate H.
  - exfalso.
    destruct (step_other_space c st Hsp Hws)
      as [He | (stk & is_key & n & acc & m & _ & Hm & n' & acc' & ->)].
    + destruct (shape_err_inv _ He) as (msg & back & fed & E).
      rewrite E in H. discriminate H.
    + rewrite Hm in H. discriminate H.
Qed.

Lemma spaces_before_end (w : pystr) (st : jstate) (v : pyval) :
  forallb py_isspace w = true -> finish (json_feed st w) = inr v ->
  finish st = inr v /\ forallb is_json_ws w = true.
Proof.
  revert st. induction w as [| c w IH]; intros st Hw H; [now split |].
  simpl in Hw. apply andb_prop in Hw as [Hc Hw].
  rewrite json_feed_cons in H.
  destruct (IH _ Hw H) as [H1 Hws].
  destruct (space_before_end st c v Hc H1) as [H2 Hcw].
  split; [exact H2 |]. simpl. now rewrite Hcw, Hws.
Qed.

Lemma ws_keep_value (w : pystr) (st : jstate) (v : pyval) :
  forallb is_json_ws w = true -> finish st = inr v ->
  finish (json_feed st w) = inr v.
Proof.
  revert st. induction w as [| c w IH]; intros st Hw H; [exact H |].
  simpl in Hw. apply andb_prop in Hw as [Hc Hw].
  rewrite json_feed_cons. apply IH; [exact Hw |]. now apply ws_keeps_value.
Qed.

(** JSON white space before the document is skipped. *)
Lemma ws_skipped (w s : pystr) :
  forallb is_json_ws w = true ->
  json_feed json_init (w ++ s) = json_feed json_init s.
Proof.
  induction w as [| c w IH]; intro Hw; [reflexivity |].
  simpl in Hw. apply andb_prop in Hw as [Hc Hw].
  simpl app. rewrite json_feed_cons.
  replace (step json_init c) with json_init; [now apply IH |].
  destruct (is_json_ws_cases c Hc) as [-> | [-> | [-> | ->]]]; reflexivity.
Qed.

(** White space before a document that is accepted is JSON white space. *)
Lemma leading_spaces (w s : pystr) (v : pyval) :
  forallb py_isspace w = true ->
  finish (json_feed json_init (w ++ s)) = inr v ->
  forallb is_json_ws w = true.
Proof.
  induction w as [| c w IH]; intros Hw H; [reflexivity |].
  simpl in Hw. apply andb_prop in Hw as [Hc Hw].
  simpl app in H. rewrite json_feed_cons in H.
  destruct (is_json_ws c) eqn:Hws.
  - simpl. rewrite Hws. apply IH; [exact Hw |].
    replace (step json_init c) with json_init in H; [exact H |].
    destruct (is_json_ws_cases c Hws) as [-> | [-> | [-> | ->]]]; reflexivity.
  - exfalso.
    destruct (step_other_space c json_init Hc Hws)
      as [He | (stk & is_key & n & acc & m & E & _)]; [| discriminate E].
    destruct (shape_err_inv _ He) as (msg & back & fed & E).
    rewrite E, json_feed_err in H. discriminate H.
Qed.

(** ** [str.replace] and [str.strip] *)

Lemma startswith_app (p rest : pystr) : startswith p (p ++ rest) = true.
Proof.
  induction p as [| a p IH]; [reflexivity |].
  simpl. now rewrite N.eqb_refl.
Qed.

Lemma startswith_split (p s : pystr) :
  startswith p s = true -> exists rest, s = p ++ rest.
Proof.
  revert s. induction p as [| a p IH]; intros s H.
  - now exists s.
  - destruct s as [| b s]; [discriminate H |].
    simpl in H. apply andb_prop in H as [Hab Hp].
    apply N.eqb_eq in Hab. subst b.
    destruct (IH s Hp) as [rest ->]. now exists rest.
Qed.

(** A character that is not in the pattern ends every attempt to match. *)
Lemma startswith_sep (old s t : pystr) (c : N) :
  ~ In c old -> startswith old (s ++ c :: t) = startswith old s.
Proof.
  revert s. induction old as [| a old IH]; intros s Hc; [now destruct s |].
  destruct s as [| b s]; simpl.
  - destruct (N.eqb_spec a c) as [-> |]; [| reflexivity].
    elim Hc. now left.
  - rewrite IH; [reflexivity |]. intro H. apply Hc. now right.
Qed.

Lemma replace_from_skip (old new : pystr) (p rest : pystr) :
  replace_from old new (length p) (p ++ rest) = replace_from old new 0 rest.
Proof. induction p as [| a p IH]; [reflexivity | exact IH]. Qed.

(** An occurrence at the head is replaced, and the search goes on after it. *)
Lemma replace_match (o : N) (old' new rest : pystr) :
  replace (o :: old') new ((o :: old') ++ rest)
  = new ++ replace (o :: old') new rest.
Proof.
  unfold replace.
  change ((o :: old') ++ rest) with (o :: (old' ++ rest)).
  cbn [replace_from].
  change (o :: old' ++ rest) with ((o :: old') ++ rest).
  rewrite startswith_app.
  change (length (o :: old') - 1) with (length old' - 0).
  rewrite Nat.sub_0_r. now rewrite replace_from_skip.
Qed.

Lemma replace_nomatch (o : N) (old' new : pystr) (c : N) (s : pystr) :
  startswith (o :: old') (c :: s) = false ->
  replace (o :: old') new (c :: s) = c :: replace (o :: old') new s.
Proof. intro H. unfold replace. cbn [replace_from]. now rewrite H. Qed.

Lemma replace_nil (o : N) (old' new : pystr) : replace (o :: old') new [] = [].
Proof. reflexivity. Qed.

(** A character that is not in the pattern splits the text in two texts
    that are replaced on their own. *)
Lemma replace_sep (o : N) (old' new : pystr) (c : N) (s t : pystr) :
  ~ In c (o :: old') ->
  replace (o :: old') new (s ++ c :: t)
  = replace (o :: old') new s ++ c :: replace (o :: old') new t.
Proof.
  intro Hc.
  assert (H : forall n s, length s <= n ->
                replace (o :: old') new (s ++ c :: t)
                = replace (o :: old') new s ++ c :: replace (o :: old') new t).
  { clear s. induction n as [| n IH]; intros s Hn.
    - destruct s; [| simpl in Hn; lia].
      simpl app. rewrite replace_nomatch; [reflexivity |].
      rewrite <- (app_nil_l (c :: t)), startswith_sep by exact Hc.
      reflexivity.
    - destruct s as [| a s].
      + simpl app. rewrite replace_nomatch; [reflexivity |].
        rewrite <- (app_nil_l (c :: t)), startswith_sep by exact Hc.
        reflexivity.
      + destruct (startswith (o :: old') (a :: s)) eqn:Hm.
        * destruct (startswith_split _ _ Hm) as [rest Hrest].
          rewrite Hrest, <- app_assoc, !replace_match, IH, app_assoc.
          { reflexivity. }
          apply (f_equal (@List.length N)) in Hrest.
          rewrite length_app in Hrest. simpl in Hrest, Hn. lia.
        * rewrite (replace_nomatch o old' new a s Hm).
          simpl app. rewrite replace_nomatch.
          { rewrite IH; [reflexivity | simpl in Hn; lia]. }
          change (a :: s ++ c :: t) with ((a :: s) ++ c :: t).
          now rewrite startswith_sep. }
  now apply (H (length s)).
Qed.

(** Characters that are not in the pattern, after the text. *)
Lemma replace_app_seps (o : N) (old' new : pystr) (s w : pystr) :
  (forall c, In c w -> ~ In c (o :: old')) ->
  replace (o :: old') new (s ++ w) = replace (o :: old') new s ++ w.
Proof.
  revert s. induction w as [| c w IH]; intros s Hw.
  - now rewrite !app_nil_r.
  - rewrite replace_sep by (apply Hw; now left).
    f_equal. f_equal.
    rewrite <- (app_nil_l w), IH; [reflexivity |].
    intros x Hx. apply Hw. now right.
Qed.

Lemma replace_seps_app (o : N) (old' new : pystr) (w s : pystr) :
  (forall c, In c w -> ~ In c (o :: old')) ->
  replace (o :: old') new (w ++ s) = w ++ replace (o :: old') new s.
Proof.
  induction w as [| c w IH]; intro Hw; [reflexivity |].
  simpl app.
  rewrite <- (app_nil_l (c :: w ++ s)), replace_sep by (apply Hw; now left).
  simpl. f_equal. apply IH. intros x Hx. apply Hw. now right.
Qed.

Lemma lstrip_decomp (s : pystr) :
  exists a, s = a ++ lstrip s /\ forallb py_isspace a = true.
Proof.
  induction s as [| c s (a & Ha & Hsp)]; [now exists [] |].
  simpl. destruct (py_isspace c) eqn:Hc.
  - exists (c :: a). simpl. rewrite Hc, Hsp. split; [now f_equal | reflexivity].
  - now exists [].
Qed.

Lemma forallb_rev {A} (f : A -> bool) (l : list A) :
  forallb f (rev l) = forallb f l.
Proof.
  induction l as [| a l IH]; [reflexivity |].
  simpl. rewrite forallb_app, IH. simpl. rewrite andb_true_r. apply andb_comm.
Qed.

Lemma rstrip_decomp (s : pystr) :
  exists b, s = rstrip s ++ b /\ forallb py_isspace b = true.
Proof.
  unfold rstrip. destruct (lstrip_decomp (rev s)) as (a & Ha & Hsp).
  exists (rev a). split.
  - rewrite <- rev_app_distr, <- Ha. now rewrite rev_involutive.
  - now rewrite forallb_rev.
Qed.

(** [strip] removes white space before and after the text, and nothing
    else. *)
Lemma strip_decomp (s : pystr) :
  exists a b,
    s = a ++ strip s ++ b
    /\ forallb py_isspace a = true /\ forallb py_isspace b = true.
Proof.
  destruct (lstrip_decomp s) as (a & Ha & Hsa).
  destruct (rstrip_decomp (lstrip s)) as (b & Hb & Hsb).
  exists a, b. unfold strip. now rewrite <- Hb.
Qed.

Lemma lstrip_nonspace (c : N) (s : pystr) :
  py_isspace c = false -> lstrip (c :: s) = c :: s.
Proof. intro H. simpl. now rewrite H. Qed.

(** A text that neither starts nor ends with white space is left as it is. *)
Lemma strip_id (c d : N) (s : pystr) :
  py_isspace c = false -> py_isspace d = false ->
  strip (c :: s ++ [d]) = c :: s ++ [d].
Proof.
  intros Hc Hd. unfold strip. rewrite lstrip_nonspace by exact Hc.
  unfold rstrip.
  replace (rev (c :: s ++ [d])) with (d :: rev s ++ [c]).
  2:{ change (c :: s ++ [d]) with ((c :: s) ++ [d]).
      rewrite rev_app_distr. reflexivity. }
  rewrite lstrip_nonspace by exact Hd.
  simpl. rewrite rev_app_distr, rev_involutive. reflexivity.
Qed.

(** ** Removing fence markers from a JSON text *)

(** Removing the occurrences of a text that starts with a backtick and goes
    on with characters that stand for themselves leaves the control state
    of the decoder as it was, when the decoder did not fail: the
    occurrences are inside strings. *)
Lemma replace_keeps_shape (p : pystr) :
  forallb plain_char p = true ->
  forall s st st',
    shape_of st = shape_of st' ->
    shape_of (json_feed st s) <> ShErr ->
    shape_of (json_feed st' (replace (BACKTICK :: p) [] s))
    = shape_of (json_feed st s).
Proof.
  intro Hp.
  assert (H : forall n s st st',
             length s <= n ->
             shape_of st = shape_of st' ->
             shape_of (json_feed st s) <> ShErr ->
             shape_of (json_feed st' (replace (BACKTICK :: p) [] s))
             = shape_of (json_feed st s)).
  { induction n as [| n IH]; intros s st st' Hn Hst Hok.
    - destruct s; [| simpl in Hn; lia]. now symmetry.
    - destruct s as [| c s]; [now symmetry |].
      destruct (startswith (BACKTICK :: p) (c :: s)) eqn:Hm.
      + destruct (startswith_split _ _ Hm) as [rest Hrest].
        rewrite Hrest in *. rewrite replace_match. simpl app at 1.
        rewrite json_feed_app in *.
        assert (Hpat : shape_of (json_feed st (BACKTICK :: p)) = shape_of st).
        { apply feed_pattern; [exact Hp |]. now apply feed_not_err in Hok. }
        apply IH.
        * rewrite length_app in Hn. simpl in Hn. lia.
        * now rewrite Hpat.
        * exact Hok.
      + rewrite replace_nomatch by exact Hm.
        rewrite !json_feed_cons in *. apply IH.
        * simpl in Hn. lia.
        * now apply step_sim.
        * exact Hok. }
  intros s st st'. now apply (H (length s)).
Qed.

Lemma fence_json_pattern :
  FENCE_JSON = BACKTICK :: tl FENCE_JSON /\ forallb plain_char (tl FENCE_JSON) = true.
Proof. split; reflexivity. Qed.

Lemma fence_pattern :
  FENCE = BACKTICK :: tl FENCE /\ forallb plain_char (tl FENCE) = true.
Proof. split; reflexivity. Qed.

(** ** Fence markers *)

Lemma strip_fences_eq (s : pystr) : strip_fences s = remove_fences (strip s).
Proof. reflexivity. Qed.

(** After [replace('```', '')] no three backticks are left in a row. *)
Lemma no_fence_left (s : pystr) : contains FENCE (replace FENCE [] s) = false.
Proof.
  assert (H : forall n s, length s <= n ->
                contains FENCE (replace FENCE [] s) = false).
  { clear s. induction n as [| n IH]; intros s Hn.
    - destruct s; [reflexivity | simpl in Hn; lia].
    - destruct s as [| c s]; [reflexivity |].
      unfold FENCE in *.
      destruct (startswith [96; 96; 96]%N (c :: s)) eqn:Hm.
      + destruct (startswith_split _ _ Hm) as [rest Hrest]. rewrite Hrest.
        rewrite replace_match. simpl app. apply IH.
        apply (f_equal (@List.length N)) in Hrest. simpl in Hrest, Hn. lia.
      + rewrite replace_nomatch by exact Hm.
        cbn [contains]. rewrite (IH s) by (simpl in Hn; lia).
        rewrite orb_false_r.
        cbn [startswith]. destruct (N.eqb_spec 96 c) as [<- |]; [| reflexivity].
        cbn [andb].
        destruct s as [| d s]; [reflexivity |].
        destruct (N.eqb_spec 96 d) as [<- | Hd].
        * destruct s as [| e s]; [reflexivity |].
          destruct (N.eqb_spec 96 e) as [<- | He].
          { simpl in Hm. discriminate Hm. }
          assert (Hne : (96 =? e)%N = false) by now apply N.eqb_neq.
          rewrite replace_nomatch
            by (cbn [startswith]; rewrite N.eqb_refl, Hne; reflexivity).
          rewrite replace_nomatch
            by (cbn [startswith]; rewrite Hne; reflexivity).
          cbn [startswith]. rewrite N.eqb_refl, Hne. reflexivity.
        * assert (Hne : (96 =? d)%N = false) by now apply N.eqb_neq.
          rewrite replace_nomatch
            by (cbn [startswith]; rewrite Hne; reflexivity).
          cbn [startswith]. rewrite Hne. reflexivity. }
  now apply (H (length s)).
Qed.

Lemma startswith_prefix (p q s : pystr) :
  startswith (p ++ q) s = true -> startswith p s = true.
Proof.
  revert s. induction p as [| a p IH]; intros s H; [reflexivity |].
  destruct s as [| b s]; [discriminate H |].
  simpl in *. apply andb_prop in H as [Hab H]. rewrite Hab. now apply IH.
Qed.

Lemma contains_prefix (p q s : pystr) :
  contains (p ++ q) s = true -> contains p s = true.
Proof.
  induction s as [| c s IH]; simpl; intro H.
  - rewrite orb_false_r in *. now apply startswith_prefix in H.
  - apply orb_prop in H as [H | H].
    + apply startswith_prefix in H. now rewrite H.
    + rewrite (IH H). apply orb_true_r.
Qed.

(** What [analyze] decodes has no fence marker left. *)
Lemma strip_fences_no_fence (s : pystr) :
  contains FENCE (strip_fences s) = false
  /\ contains FENCE_JSON (strip_fences s) = false.
Proof.
  assert (H : contains FENCE (strip_fences s) = false) by apply no_fence_left.
  split; [exact H |].
  destruct (contains FENCE_JSON (strip_fences s)) eqn:E; [| reflexivity].
  change FENCE_JSON with (FENCE ++ [106; 115; 111; 110]%N) in E.
  apply contains_prefix in E. congruence.
Qed.

Lemma space_not_in_fence (c : N) :
  py_isspace c = true -> ~ In c FENCE_JSON /\ ~ In c FENCE.
Proof.
  intro H. apply space_range in H.
  split; simpl; intro Hin; repeat (destruct Hin as [Hin | Hin]; [lia |]);
    exact Hin.
Qed.

Lemma forallb_In {A} (f : A -> bool) (l : list A) (x : A) :
  forallb f l = true -> In x l -> f x = true.
Proof. intros H Hx. rewrite forallb_forall in H. now apply H. Qed.

(** White space around a text stays around it when the fence markers are
    removed. *)
Lemma remove_fences_spaces (a s b : pystr) :
  forallb py_isspace a = true -> forallb py_isspace b = true ->
  remove_fences (a ++ s ++ b) = a ++ remove_fences s ++ b.
Proof.
  intros Ha Hb.
  assert (Hsa : forall c, In c a -> ~ In c FENCE_JSON /\ ~ In c FENCE).
  { intros c Hc. apply space_not_in_fence. now apply (forallb_In _ a). }
  assert (Hsb : forall c, In c b -> ~ In c FENCE_JSON /\ ~ In c FENCE).
  { intros c Hc. apply space_not_in_fence. now apply (forallb_In _ b). }
  unfold remove_fences.
  change FENCE_JSON with (96%N :: tl FENCE_JSON).
  change FENCE with (96%N :: tl FENCE).
  rewrite (replace_seps_app 96 (tl FENCE_JSON) [] a (s ++ b))
    by (intros c Hc; now apply Hsa).
  rewrite (replace_app_seps 96 (tl FENCE_JSON) [] s b)
    by (intros c Hc; now apply Hsb).
  rewrite (replace_seps_app 96 (tl FENCE) [] a)
    by (intros c Hc; now apply Hsa).
  rewrite (replace_app_seps 96 (tl FENCE) [] _ b)
    by (intros c Hc; now apply Hsb).
  reflexivity.
Qed.

(** What is decoded of a reply between fences. *)
Lemma strip_fences_fenced (j : pystr) :
  strip_fences (fenced j) = NL :: remove_fences j ++ [NL].
Proof.
  assert (Hf : fenced j
               = 96%N :: ([96; 96; 106; 115; 111; 110; 10]%N ++ j ++ [10; 96; 96]%N)
                      ++ [96%N]).
  { unfold fenced, FENCE_JSON, FENCE, NL. simpl. do 8 f_equal.
    now rewrite <- app_assoc. }
  unfold strip_fences.
  rewrite Hf, strip_id, <- Hf by reflexivity.
  assert (H1 : ~ In NL (96%N :: tl FENCE_JSON)) by (simpl; intuition discriminate).
  assert (H2 : ~ In NL (96%N :: tl FENCE)) by (simpl; intuition discriminate).
  unfold remove_fences, fenced.
  rewrite (replace_match 96 (tl FENCE_JSON) [] ([NL] ++ j ++ [NL] ++ FENCE)
           : replace FENCE_JSON [] (FENCE_JSON ++ [NL] ++ j ++ [NL] ++ FENCE)
             = replace FENCE_JSON [] (NL :: j ++ NL :: FENCE)).
  rewrite (replace_sep 96 (tl FENCE_JSON) [] NL [] (j ++ NL :: FENCE) H1
           : replace FENCE_JSON [] (NL :: j ++ NL :: FENCE)
             = NL :: replace FENCE_JSON [] (j ++ NL :: FENCE)).
  rewrite (replace_sep 96 (tl FENCE_JSON) [] NL j FENCE H1
           : replace FENCE_JSON [] (j ++ NL :: FENCE)
             = replace FENCE_JSON [] j ++ NL :: FENCE).
  rewrite (replace_sep 96 (tl FENCE) [] NL []
             (replace FENCE_JSON [] j ++ NL :: FENCE) H2
           : replace FENCE [] (NL :: replace FENCE_JSON [] j ++ NL :: FENCE)
             = NL :: replace FENCE [] (replace FENCE_JSON [] j ++ NL :: FENCE)).
  rewrite (replace_sep 96 (tl FENCE) [] NL (replace FENCE_JSON [] j) FENCE H2
           : replace FENCE [] (replace FENCE_JSON [] j ++ NL :: FENCE)
             = replace FENCE [] (replace FENCE_JSON [] j) ++ [NL]).
  reflexivity.
Qed.

(** ** Decoding what is left of a reply *)

Lemma json_loads_ok_inv (doc : pystr) (v : pyval) :
  json_loads doc = inr v -> finish (json_feed json_init doc) = inr v.
Proof.
  unfold json_loads. destruct (startswith [BOM] doc); [discriminate |].
  destruct (finish (json_feed json_init doc)) as [[msg back] | v0];
    [discriminate | now intros [= ->]].
Qed.

Lemma json_loads_ok_intro (doc : pystr) (v : pyval) :
  finish (json_feed json_init doc) = inr v -> json_loads doc = inr v.
Proof.
  intro H. unfold json_loads.
  destruct doc as [| c doc]; [discriminate H |].
  change (startswith [BOM] (c :: doc)) with ((BOM =? c)%N && true).
  destruct (N.eqb_spec BOM c) as [<- |].
  - rewrite json_feed_cons in H.
    change (step json_init BOM) with (JErr EXPECTING_VALUE 0 0) in H.
    rewrite json_feed_err in H. discriminate H.
  - cbn [andb]. now rewrite H.
Qed.

Lemma accepted_finish (st : jstate) :
  accepted st = true -> exists v, finish st = inr v.
Proof.
  unfold accepted. destruct (finish st) as [e | v]; [discriminate | eauto].
Qed.

Lemma finish_accepted (st : jstate) (v : pyval) :
  finish st = inr v -> accepted st = true.
Proof. unfold accepted. now intros ->. Qed.

(** A JSON text is still one when its white space is stripped, with the
    same value, and the white space stripped is JSON white space. *)
Lemma json_loads_strip (doc : pystr) (v : pyval) :
  json_loads doc = inr v ->
  json_loads (strip doc) = inr v
  /\ exists a b,
       doc = a ++ strip doc ++ b
       /\ forallb is_json_ws a = true /\ forallb is_json_ws b = true.
Proof.
  intro H. apply json_loads_ok_inv in H.
  destruct (strip_decomp doc) as (a & b & Hdoc & Ha & Hb).
  rewrite Hdoc in H.
  pose proof (leading_spaces a _ v Ha H) as Hwa.
  rewrite ws_skipped, json_feed_app in H by exact Hwa.
  destruct (spaces_before_end b _ v Hb H) as [Hcore Hwb].
  split; [now apply json_loads_ok_intro |].
  now exists a, b.
Qed.

(** A JSON text is still one when its fence markers are removed. *)
Lemma json_loads_remove_fences (doc : pystr) (v : pyval) :
  json_loads doc = inr v -> exists v', json_loads (remove_fences doc) = inr v'.
Proof.
  intro H. apply json_loads_ok_inv in H.
  pose proof (accepted_not_err _ (finish_accepted _ _ H)) as Hok.
  destruct fence_json_pattern as [E1 P1]. destruct fence_pattern as [E2 P2].
  assert (S1 : shape_of (json_feed json_init (replace FENCE_JSON [] doc))
               = shape_of (json_feed json_init doc)).
  { rewrite E1. now apply replace_keeps_shape. }
  assert (S2 : shape_of (json_feed json_init (remove_fences doc))
               = shape_of (json_feed json_init doc)).
  { pose proof (replace_keeps_shape (tl FENCE) P2 (replace FENCE_JSON [] doc)
                  json_init json_init eq_refl) as S2.
    rewrite S1 in S2. exact (S2 Hok). }
  apply accepted_sim in S2. rewrite (finish_accepted _ _ H) in S2.
  destruct (accepted_finish _ S2) as [v' Hv']. exists v'.
  now apply json_loads_ok_intro.
Qed.

(** A JSON reply and the same reply between fences are decoded alike. *)
Lemma fenced_reply_decodes (j : pystr) (v : pyval) :
  json_loads j = inr v ->
  exists v',
    json_loads (strip_fences j) = inr v'
    /\ json_loads (strip_fences (fenced j)) = inr v'.
Proof.
  intro H.
  destruct (json_loads_strip j v H) as (Hcore & a & b & Hj & Ha & Hb).
  destruct (json_loads_remove_fences _ _ Hcore) as [v' Hv'].
  exists v'. split; [exact Hv' |].
  rewrite strip_fences_fenced.
  rewrite Hj at 1.
  assert (Hsp : forall w, forallb is_json_ws w = true ->
                  forallb py_isspace w = true).
  { intros w Hw. apply forallb_forall. intros c Hc.
    apply is_json_ws_space. exact (forallb_In is_json_ws w c Hw Hc). }
  rewrite remove_fences_spaces by (apply Hsp; assumption).
  apply json_loads_ok_intro.
  replace (NL :: (a ++ remove_fences (strip j) ++ b) ++ [NL])
    with ((NL :: a) ++ remove_fences (strip j) ++ b ++ [NL])
    by (simpl; now rewrite <- !app_assoc).
  rewrite ws_skipped by (simpl; exact Ha).
  rewrite json_feed_app.
  apply ws_keep_value.
  - rewrite forallb_app, Hb. reflexivity.
  - now apply json_loads_ok_inv.
Qed.

Section AnalyzeFacts.

Variable repr_str : pystr -> pystr.
Variable net : nat -> http_request -> http_outcome.

(** Each of the three [analyze] methods returns what [parse_response]
    makes of the reply of its one request, and raises no exception. *)
Lemma clause_analyze_eq (self : Agent) (contract_text : pystr) (w : world) :
  fst (ClauseExtractionAgent_analyze repr_str net self contract_text w)
  = inr (parse_response repr_str
           (api_reply
              (net (requests_made w)
                 (api_request self
                    (u "请分析以下合同文本并提取关键条款信息：

" ++ contract_text) CLAUSE_SYSTEM_PROMPT)))).
Proof.
  unfold ClauseExtractionAgent_analyze, bind, ret.
  now rewrite call_api_eq.
Qed.

Lemma risk_analyze_eq (self : Agent) (clause_data : pyval) (w : world) :
  fst (RiskAnalysisAgent_analyze repr_str net self clause_data w)
  = inr (parse_response repr_str
           (api_reply
              (net (requests_made w)
                 (api_request self
                    (u "请对以下合同条款进行风险量化分析：

" ++ json_dumps false (Some 2) clause_data) RISK_SYSTEM_PROMPT)))).
Proof.
  unfold RiskAnalysisAgent_analyze, bind, ret.
  now rewrite call_api_eq.
Qed.

Lemma compliance_analyze_eq (self : Agent) (clause_data : pyval)
  (rules : option pystr) (w : world) :
  fst (ComplianceAnalysisAgent_analyze repr_str net self clause_data rules w)
  = inr (parse_response repr_str
           (api_reply
              (net (requests_made w)
                 (api_request self
                    (u "请对以下合同条款进行合规性分析：

" ++ json_dumps false (Some 2) clause_data)
                    (compliance_system_prompt
                       match rules with
                       | None => DEFAULT_COMPLIANCE_RULES
                       | Some r => r
                       end))))).
Proof.
  unfold ComplianceAnalysisAgent_analyze, bind, ret.
  now rewrite call_api_eq.
Qed.

End AnalyzeFacts.

(** ** String literals *)

Lemma join_surrogates_plain (t : pystr) :
  join_surrogates (map (fun c => (c, false)) t) = t.
Proof.
  induction t as [| c t IH]; [reflexivity |].
  destruct t as [| d t]; [reflexivity |].
  change (join_surrogates (map (fun c => (c, false)) (c :: d :: t)))
    with (c :: join_surrogates (map (fun c => (c, false)) (d :: t))).
  now rewrite IH.
Qed.

(** A string literal without escapes is decoded to its content. *)
Lemma json_loads_quoted (t : pystr) :
  forallb plain_char t = true -> json_loads (quoted t) = inr (PStr t).
Proof.
  intro H. apply json_loads_ok_intro. unfold quoted.
  rewrite json_feed_cons.
  change (step json_init 34%N) with (JRun [] (MStr false 1 [])).
  rewrite json_feed_app, feed_plain by exact H.
  rewrite app_nil_r.
  change (json_feed ?st [34%N]) with (step st 34%N).
  cbn [step N.eqb Pos.eqb end_string deliver finish].
  now rewrite rev_involutive, join_surrogates_plain.
Qed.

Lemma replace_forallb (f : N -> bool) (o : N) (old' : pystr) (s : pystr) :
  forallb f s = true -> forallb f (replace (o :: old') [] s) = true.
Proof.
  assert (H : forall n s, length s <= n -> forallb f s = true ->
                forallb f (replace (o :: old') [] s) = true).
  { clear s. induction n as [| n IH]; intros s Hn Hs.
    - destruct s; [reflexivity | simpl in Hn; lia].
    - destruct s as [| c s]; [reflexivity |].
      destruct (startswith (o :: old') (c :: s)) eqn:Hm.
      + destruct (startswith_split _ _ Hm) as [rest Hrest].
        rewrite Hrest in *. rewrite replace_match. simpl app at 1.
        rewrite forallb_app in Hs. apply andb_prop in Hs as [_ Hs].
        apply IH; [| exact Hs].
        rewrite length_app in Hn. simpl in Hn. lia.
      + rewrite replace_nomatch by exact Hm.
        simpl in Hs |- *. apply andb_prop in Hs as [Hc Hs].
        rewrite Hc. apply IH; [simpl in Hn; lia | exact Hs]. }
  now apply (H (length s)).
Qed.

Lemma remove_fences_plain (t : pystr) :
  forallb plain_char t = true -> forallb plain_char (remove_fences t) = true.
Proof.
  intro H. unfold remove_fences, FENCE, FENCE_JSON.
  now do 2 apply replace_forallb.
Qed.

(** What is decoded of a reply that is a string literal. *)
Lemma strip_fences_quoted (t : pystr) :
  strip_fences (quoted t) = quoted (remove_fences t).
Proof.
  assert (H1 : ~ In 34%N (96%N :: tl FENCE_JSON)) by (simpl; intuition discriminate).
  assert (H2 : ~ In 34%N (96%N :: tl FENCE)) by (simpl; intuition discriminate).
  unfold strip_fences, quoted. rewrite strip_id by reflexivity.
  unfold remove_fences.
  rewrite (replace_sep 96 (tl FENCE_JSON) [] 34 [] (t ++ [34%N]) H1
           : replace FENCE_JSON [] (34%N :: t ++ [34%N])
             = 34%N :: replace FENCE_JSON [] (t ++ [34%N])).
  rewrite (replace_sep 96 (tl FENCE_JSON) [] 34 t [] H1
           : replace FENCE_JSON [] (t ++ [34%N])
             = replace FENCE_JSON [] t ++ [34%N]).
  rewrite (replace_sep 96 (tl FENCE) [] 34 [] (replace FENCE_JSON [] t ++ [34%N]) H2
           : replace FENCE [] (34%N :: replace FENCE_JSON [] t ++ [34%N])
             = 34%N :: replace FENCE [] (replace FENCE_JSON [] t ++ [34%N])).
  rewrite (replace_sep 96 (tl FENCE) [] 34 (replace FENCE_JSON [] t) [] H2
           : replace FENCE [] (replace FENCE_JSON [] t ++ [34%N])
             = replace FENCE [] (replace FENCE_JSON [] t) ++ [34%N]).
  reflexivity.
Qed.

(** ** [call_api] and the report *)

(** C2, as the specification has it, fails: a 201 response that carries a
    well-formed completion is reported as a failed call. *)
Lemma created_response_is_reported_as_failure :
  let self := Agent_init example_config in
  let req := api_request self (u "prompt") (u "system") in
  exists r,
    net_created 0 req = Responded r
    /\ (200 <= status_code r < 300)%Z
    /\ (exists body,
          json_loads (text r) = inr body
          /\ completion_content body = inr (PStr (u "hi")))
    /\ fst (call_api net_created self (u "prompt") (u "system") (World 0 []))
       <> inr (PStr (u "hi")).
Proof.
  intros self req. eexists. split; [reflexivity |].
  split; [cbn; lia |].
  split; [eexists; split; reflexivity |].
  rewrite call_api_eq. cbn [fst]. vm_compute. discriminate.
Qed.

(** C2, amended. [call_api] returns the content of the first completion,
    as it is, when the status of the response is 200 and its body has a
    first completion with a content; it returns the string
    [API调用失败: HTTP <status>, <text>] when the status is not 200, other
    2xx statuses included, and the string [API调用异常: <text of the
    exception>] when the transport fails.  In each case the value is
    returned and no exception is raised. *)
Theorem call_api_returns
  (net : nat -> http_request -> http_outcome)
  (self : Agent) (prompt system_prompt : pystr) (w : world) :
  let outcome := net (requests_made w) (api_request self prompt system_prompt) in
  let result := fst (call_api net self prompt system_prompt w) in
  (forall r body content,
     outcome = Responded r -> status_code r = 200%Z ->
     json_loads (text r) = inr body -> completion_content body = inr content ->
     result = inr content)
  /\ (forall r,
        outcome = Responded r -> status_code r <> 200%Z ->
        result =
          inr (PStr (API_FAILED ++ str_of_Z (status_code r) ++ u ", " ++ text r)))
  /\ (forall msg,
        outcome = TransportFailure msg ->
        result = inr (PStr (API_EXCEPTION ++ msg))).
Proof.
  intros outcome result. subst outcome result. rewrite call_api_eq. cbn [fst].
  repeat split.
  - intros r body content -> Hs Hb Hc. cbn [api_reply].
    rewrite Hs, Hb, Hc. reflexivity.
  - intros r -> Hs. cbn [api_reply].
    destruct (Z.eqb_spec (status_code r) 200); [contradiction | reflexivity].
  - intros msg ->. reflexivity.
Qed.

Lemma call_api_returns_witness :
  fst (call_api net_created (Agent_init example_config) (u "prompt") (u "system")
         (World 0 []))
  = inr (PStr (API_FAILED ++ str_of_Z 201 ++ u ", "
                 ++ json_dumps true None
                      (PDict [(u "choices",
                               PList [PDict [(u "message",
                                              PDict [(u "content",
                                                      PStr (u "hi"))])]])]))).
Proof.
  refine (proj1 (proj2 (call_api_returns net_created (Agent_init example_config)
                          (u "prompt") (u "system") (World 0 [])))
            (HttpResponse 201 _) eq_refl _).
  cbn. discriminate.
Defined.

(** C9, as stated, fails: when the content of the completion is [null],
    [call_api] returns [None], which is not a string. *)
Lemma null_content_is_returned :
  ~ exists s,
      fst (call_api net_null (Agent_init example_config) (u "prompt") (u "system")
             (World 0 []))
      = inr (PStr s).
Proof.
  rewrite call_api_eq. cbn [fst]. vm_compute. intros [s H]. discriminate H.
Qed.

(** C9, amended. [call_api] always returns a value and raises no exception.
    The value is a string, except that the content of the first completion
    of a 200 response is returned whatever it is.  When the body of a 200
    response is not JSON, or has no first completion with a content, the
    value is the string [API调用异常: <text of the exception>]. *)
Theorem call_api_total
  (net : nat -> http_request -> http_outcome)
  (self : Agent) (prompt system_prompt : pystr) (w : world) :
  let outcome := net (requests_made w) (api_request self prompt system_prompt) in
  exists v,
    fst (call_api net self prompt system_prompt w) = inr v
    /\ (is_str v = true
        \/ exists r body,
             outcome = Responded r /\ status_code r = 200%Z
             /\ json_loads (text r) = inr body
             /\ completion_content body = inr v)
    /\ (forall r e,
          outcome = Responded r -> status_code r = 200%Z ->
          json_loads (text r) = inl e ->
          v = PStr (API_EXCEPTION ++ exn_str e))
    /\ (forall r body e,
          outcome = Responded r -> status_code r = 200%Z ->
          json_loads (text r) = inr body -> completion_content body = inl e ->
          v = PStr (API_EXCEPTION ++ exn_str e)).
Proof.
  intro outcome. subst outcome. rewrite call_api_eq. cbn [fst].
  eexists. split; [reflexivity |].
  destruct (net (requests_made w) (api_request self prompt system_prompt))
    as [r | msg]; cbn [api_reply].
  - destruct (Z.eqb_spec (status_code r) 200) as [Hs | Hs].
    + destruct (json_loads (text r)) as [e | body] eqn:Hb.
      * split; [left; reflexivity |]. split.
        -- intros r' e' [= <-] _ He. rewrite Hb in He. now inversion He.
        -- intros r' body e' [= <-] _ He. rewrite Hb in He. discriminate He.
      * destruct (completion_content body) as [e | content] eqn:Hc.
        -- split; [left; reflexivity |]. split.
           ++ intros r' e' [= <-] _ He. rewrite Hb in He. discriminate He.
           ++ intros r' body' e' [= <-] _ He Hc'. rewrite Hb in He.
              inversion He; subst body'. rewrite Hc in Hc'. now inversion Hc'.
        -- split; [right; exists r, body; auto |]. split.
           ++ intros r' e' [= <-] _ He. rewrite Hb in He. discriminate He.
           ++ intros r' body' e' [= <-] _ He Hc'. rewrite Hb in He.
              inversion He; subst body'. rewrite Hc in Hc'. discriminate Hc'.
    + split; [left; reflexivity |]. split.
      * intros r' e' [= <-] Hs'. contradiction.
      * intros r' body e' [= <-] Hs'. contradiction.
  - split; [left; reflexivity |]. split; intros; discriminate.
Qed.

Lemma call_api_total_witness :
  fst (call_api net_garbage (Agent_init example_config) (u "prompt") (u "system")
         (World 0 []))
  = inr (PStr (API_EXCEPTION ++ u "Expecting value: line 1 column 1 (char 0)")).
Proof.
  destruct (call_api_total net_garbage (Agent_init example_config)
              (u "prompt") (u "system") (World 0 []))
    as (v & Hv & _ & Hjson & _).
  rewrite Hv. f_equal.
  rewrite (Hjson (HttpResponse 200 (u "<html>Bad Gateway</html>"))
             (decode_error EXPECTING_VALUE (u "<html>Bad Gateway</html>") 0)
             eq_refl eq_refl).
  - vm_compute. reflexivity.
  - vm_compute. reflexivity.
Defined.

(** C8, as stated, fails: a run completes with a report that is [None] when
    the completion of the report stage has no content, and the exporter
    raises [TypeError] on the results of that run. *)
Lemma null_report_is_not_exported :
  let results :=
    final_results ascii_repr net_null_report example_config example_contract 0 in
  In (Complete results)
     (events_of (run ascii_repr net_null_report example_config example_contract))
  /\ generate_combined_report ascii_repr results example_now
     = inl (Exn TypeError
              (u "can only concatenate str (not " ++ [34%N] ++ u "NoneType"
                 ++ [34%N] ++ u ") to str")).
Proof.
  intro results. split.
  - rewrite run_events_of. unfold run_events. simpl. tauto.
  - vm_compute. reflexivity.
Qed.

(** C8, amended. For results whose report and accuracy check are strings,
    the exporter returns one document: the title and the date, then the
    five numbered sections in the order clause extraction, risk analysis,
    compliance analysis, detailed report, accuracy check, the body of each
    made of the result of its stage. *)
Theorem combined_report_sections
  (repr_str : pystr -> pystr) (results : pydict) (now : datetime)
  (report accuracy : pystr) :
  dict_get_default results KEY_REPORT (PStr []) = PStr report ->
  dict_get_default results KEY_ACCURACY (PStr []) = PStr accuracy ->
  generate_combined_report repr_str results now =
  inr (TITLE ++ u "**审查日期:** " ++ strftime_report now ++ [NL; NL]
       ++ HEADING_1
       ++ render_stage repr_str (dict_get_default results KEY_CLAUSES (PDict []))
       ++ HEADING_2
       ++ render_stage repr_str (dict_get_default results KEY_RISK (PDict []))
       ++ HEADING_3
       ++ render_stage repr_str (dict_get_default results KEY_COMPLIANCE (PDict []))
       ++ HEADING_4 ++ report
       ++ HEADING_5 ++ accuracy).
Proof.
  intros Hr Ha. unfold generate_combined_report.
  rewrite Hr, Ha. cbn [str_iadd]. f_equal.
  repeat rewrite <- app_assoc. reflexivity.
Qed.

Lemma combined_report_sections_witness :
  exists doc,
    generate_combined_report ascii_repr
      (final_results ascii_repr net_risk_fails example_config example_contract 0)
      example_now = inr doc.
Proof.
  eexists.
  apply (combined_report_sections ascii_repr
           (final_results ascii_repr net_risk_fails example_config
              example_contract 0)
           example_now (u "{}") (u "{}")); vm_compute; reflexivity.
Defined.

(** ** The pipeline *)

(** C1. In every run each stage is called with the results of the stages it
    depends on and with nothing else: risk analysis and compliance analysis
    get the result of clause extraction, which is what [analyze] made of
    the reply and not the reply itself; report generation gets the three
    results; the accuracy check gets the contract text and the report.
    Every argument of a call is the contract text or was returned by a call
    that ended before. *)
Theorem stages_receive_upstream_results
  (repr_str : pystr -> pystr) (net : nat -> http_request -> http_outcome)
  (api_config : APIConfig) (contract_text : pystr) :
  let evs := events_of (run repr_str net api_config contract_text) in
  let clause := clause_result repr_str net api_config contract_text 0 in
  let risk := risk_result repr_str net api_config contract_text 0 in
  let compliance := compliance_result repr_str net api_config contract_text 0 in
  let report := report_result repr_str net api_config contract_text 0 in
  let accuracy := accuracy_result repr_str net api_config contract_text 0 in
  filter is_stage_event evs =
    [Invoke ClauseExtraction [PStr contract_text];
     Return ClauseExtraction clause;
     Invoke RiskAnalysis [clause];
     Return RiskAnalysis risk;
     Invoke ComplianceAnalysis [clause];
     Return ComplianceAnalysis compliance;
     Invoke ReportGeneration [clause; risk; compliance];
     Return ReportGeneration report;
     Invoke AccuracyCheck [PStr contract_text; report];
     Return AccuracyCheck accuracy]
  /\ clause =
       parse_response repr_str
         (api_reply (net 0 (clause_request api_config contract_text)))
  /\ inputs_available [PStr contract_text] evs.
Proof.
  intros evs clause risk compliance report accuracy. subst evs.
  rewrite run_events_of. split; [reflexivity | split; [reflexivity |]].
  unfold run_events. cbn [inputs_available In].
  fold clause risk compliance report accuracy.
  clearbody clause risk compliance report accuracy.
  repeat split; intros a Ha; simpl; tauto.
Qed.

(** C7. In every run the percent values notified are
    10, 20, 35, 40, 55, 60, 75, 80, 90, 91, 100 in this order, which is
    non-decreasing; two notifications surround each stage, in the order of
    the stages, and the run completes. *)
Theorem progress_schedule
  (repr_str : pystr -> pystr) (net : nat -> http_request -> http_outcome)
  (api_config : APIConfig) (contract_text : pystr) :
  let evs := events_of (run repr_str net api_config contract_text) in
  percents evs = [10; 20; 35; 40; 55; 60; 75; 80; 90; 91; 100]%Z
  /\ nondecreasing (percents evs) = true
  /\ marks evs =
       [Notified 10;
        Notified 20; Entered ClauseExtraction; Left ClauseExtraction; Notified 35;
        Notified 40; Entered RiskAnalysis; Left RiskAnalysis; Notified 55;
        Notified 60; Entered ComplianceAnalysis; Left ComplianceAnalysis; Notified 75;
        Notified 80; Entered ReportGeneration; Left ReportGeneration; Notified 90;
        Notified 91; Entered AccuracyCheck; Left AccuracyCheck; Notified 100]
  /\ exists results, last evs ThreadStart = Complete results.
Proof.
  intro evs. subst evs. rewrite run_events_of.
  repeat split. eexists. reflexivity.
Qed.

(** C6. When the contract text is empty or the API key is empty,
    [process_contract] only warns (and opens the settings for a missing
    key): no thread is started, no request is made, no progress is notified
    and no stage is called. *)
Theorem empty_input_rejected
  (repr_str : pystr -> pystr) (net : nat -> http_request -> http_outcome)
  (self : ContractReviewApp) :
  app_contract_text self = [] \/ api_key (app_api_config self) = [] ->
  let w := snd (process_contract repr_str net self (World 0 [])) in
  requests_made w = 0
  /\ ~ In ThreadStart (log w)
  /\ (forall req, ~ In (HttpPost req) (log w))
  /\ (forall p m, ~ In (Progress p m) (log w))
  /\ (forall s args, ~ In (Invoke s args) (log w))
  /\ exists title message,
       log w = [MessageBoxWarning title message]
       \/ log w = [MessageBoxWarning title message; ShowApiSettings].
Proof.
  intros H w.
  assert (Hw : requests_made w = 0 /\
               exists title message,
                 log w = [MessageBoxWarning title message]
                 \/ log w = [MessageBoxWarning title message; ShowApiSettings]).
  { subst w. unfold process_contract.
    destruct (app_contract_text self) as [| c t].
    - split; [reflexivity |]. do 2 eexists. left. reflexivity.
    - destruct H as [H | H]; [discriminate |]. rewrite H.
      split; [reflexivity |]. do 2 eexists. right. reflexivity. }
  clearbody w.
  destruct Hw as (Hn & title & message & Hlog).
  split; [exact Hn |].
  assert (Hin : forall e, In e (log w) ->
                  e = MessageBoxWarning title message \/ e = ShowApiSettings).
  { intros e He. destruct Hlog as [Hlog | Hlog]; rewrite Hlog in He.
    - destruct He as [<- | []]. now left.
    - destruct He as [<- | [<- | []]]; [now left | now right]. }
  repeat split.
  - intro Hc. destruct (Hin _ Hc); discriminate.
  - intros req Hc. destruct (Hin _ Hc); discriminate.
  - intros p m Hc. destruct (Hin _ Hc); discriminate.
  - intros s args Hc. destruct (Hin _ Hc); discriminate.
  - eauto.
Qed.

Lemma empty_input_rejected_witness :
  let self := {| app_api_config := example_config; app_contract_text := [] |} in
  let w := snd (process_contract ascii_repr net_risk_fails self (World 0 [])) in
  requests_made w = 0 /\ ~ In ThreadStart (log w).
Proof.
  intros self w.
  pose proof (empty_input_rejected ascii_repr net_risk_fails self
                (or_introl eq_refl)) as H.
  split; [exact (proj1 H) | exact (proj1 (proj2 H))].
Defined.

(** C3, as the specification has it, fails: when the transport fails on the
    second request, the run still completes, reports no failure and calls
    the report and accuracy-check agents. *)
Lemma failed_risk_transport_is_not_fatal :
  let evs :=
    events_of (run ascii_repr net_risk_fails example_config example_contract) in
  example_contract <> []
  /\ (forall req, net_risk_fails 1 req = TransportFailure (u "Connection refused"))
  /\ ~ ((exists message, filter is_failure evs = [Failure message])
        /\ (forall results, ~ In (Complete results) evs)
        /\ (forall args, ~ In (Invoke ReportGeneration args) evs)
        /\ (forall args, ~ In (Invoke AccuracyCheck args) evs)).
Proof.
  intro evs. split; [discriminate | split; [reflexivity |]].
  intros [[message H] _]. subst evs. rewrite run_events_of in H.
  discriminate H.
Qed.

(** C3, amended. When the transport fails on the second request, [call_api]
    returns its error string, risk analysis yields the one-key error record
    made of it, and the run goes on: the report and accuracy-check agents
    are called, no failure is notified and the run completes with the error
    record as the result of risk analysis. *)
Theorem failed_risk_transport_is_recorded
  (repr_str : pystr -> pystr) (net : nat -> http_request -> http_outcome)
  (api_config : APIConfig) (contract_text : pystr) (msg : pystr) :
  (forall req, net 1 req = TransportFailure msg) ->
  let evs := events_of (run repr_str net api_config contract_text) in
  let record :=
    PDict [(ERROR_KEY,
            PStr (ERROR_PREFIX ++ strip_fences (API_EXCEPTION ++ msg)))] in
  In (Return RiskAnalysis record) evs
  /\ (forall message, ~ In (Failure message) evs)
  /\ (exists args, In (Invoke ReportGeneration args) evs)
  /\ (exists args, In (Invoke AccuracyCheck args) evs)
  /\ exists results,
       last evs ThreadStart = Complete results
       /\ dict_get results KEY_RISK = Some record.
Proof.
  intros Hnet evs record. subst evs. rewrite run_events_of.
  assert (Hrisk : risk_result repr_str net api_config contract_text 0 = record).
  { unfold risk_result. rewrite Hnet. apply parse_response_api_exception. }
  unfold run_events. rewrite Hrisk.
  split; [simpl; tauto |].
  split.
  { intros message H. simpl in H.
    repeat (destruct H as [H | H]; [discriminate H |]). exact H. }
  split; [eexists; simpl; tauto |].
  split; [eexists; simpl; tauto |].
  eexists. split; [reflexivity |].
  unfold final_results. rewrite Hrisk. reflexivity.
Qed.

Lemma failed_risk_transport_is_recorded_witness :
  exists results,
    last (events_of (run ascii_repr net_risk_fails example_config example_contract))
         ThreadStart = Complete results.
Proof.
  destruct (failed_risk_transport_is_recorded ascii_repr net_risk_fails
              example_config example_contract (u "Connection refused")
              (fun req => eq_refl))
    as (_ & _ & _ & _ & results & H & _).
  exists results. exact H.
Defined.

(** ** The structured agents and the replies *)

Section StructuredAgents.

Variable repr_str : pystr -> pystr.

(** What [analyze] makes of a reply that is not JSON once stripped: the
    record with the one key 解析错误, whose value ends with the stripped
    reply. *)
Lemma parse_response_error (reply : pystr) (e : exn) :
  json_loads (strip_fences reply) = inl e ->
  parse_response repr_str (PStr reply)
  = PDict [(ERROR_KEY, PStr (ERROR_PREFIX ++ strip_fences reply))].
Proof. intro H. unfold parse_response, parse_block. now rewrite H. Qed.

Lemma parse_response_ok (reply : pystr) (v : pyval) :
  json_loads (strip_fences reply) = inr v ->
  parse_response repr_str (PStr reply) = v.
Proof. intro H. unfold parse_response, parse_block. now rewrite H. Qed.

End StructuredAgents.

(** C4. The error record of a reply that is not JSON holds the reply after
    stripping, not the reply as it came: for the reply [{oops] between
    fences, each structured agent returns the record with the one key
    解析错误 whose value ends with a newline, [{oops] and a newline, and the
    reply itself is not in the value. *)
Theorem error_record_holds_stripped_reply :
  let self := Agent_init example_config in
  let record :=
    PDict [(ERROR_KEY, PStr (ERROR_PREFIX ++ [NL] ++ u "{oops" ++ [NL]))] in
  replies_with net_fenced_garbage (PStr fenced_garbage)
  /\ (exists e, json_loads (strip_fences fenced_garbage) = inl e)
  /\ fst (ClauseExtractionAgent_analyze ascii_repr net_fenced_garbage self
            example_contract (World 0 [])) = inr record
  /\ fst (RiskAnalysisAgent_analyze ascii_repr net_fenced_garbage self
            (PDict []) (World 0 [])) = inr record
  /\ fst (ComplianceAnalysisAgent_analyze ascii_repr net_fenced_garbage self
            (PDict []) None (World 0 [])) = inr record
  /\ contains fenced_garbage (ERROR_PREFIX ++ [NL] ++ u "{oops" ++ [NL]) = false.
Proof.
  intros self record.
  assert (Hr : replies_with net_fenced_garbage (PStr fenced_garbage)).
  { intros n req. vm_compute. reflexivity. }
  assert (Hp : parse_response ascii_repr (PStr fenced_garbage) = record).
  { vm_compute. reflexivity. }
  split; [exact Hr |].
  split; [eexists; vm_compute; reflexivity |].
  split; [rewrite clause_analyze_eq, Hr; now rewrite Hp |].
  split; [rewrite risk_analyze_eq, Hr; now rewrite Hp |].
  split; [rewrite compliance_analyze_eq, Hr; now rewrite Hp |].
  vm_compute. reflexivity.
Qed.

(** C5. When the API replies with a JSON text, and when it replies with the
    same text between the fences [```json] and [```], each structured agent
    returns the same value, which is decoded from the text and is not the
    error record. *)
Theorem fenced_reply_same_result
  (repr_str : pystr -> pystr) (net net' : nat -> http_request -> http_outcome)
  (j : pystr) (v : pyval) :
  json_loads j = inr v ->
  replies_with net (PStr j) ->
  replies_with net' (PStr (fenced j)) ->
  exists v',
    json_loads (strip_fences j) = inr v'
    /\ forall self contract_text clause_data rules w w',
         fst (ClauseExtractionAgent_analyze repr_str net self contract_text w)
         = inr v'
         /\ fst (ClauseExtractionAgent_analyze repr_str net' self contract_text w')
            = inr v'
         /\ fst (RiskAnalysisAgent_analyze repr_str net self clause_data w)
            = inr v'
         /\ fst (RiskAnalysisAgent_analyze repr_str net' self clause_data w')
            = inr v'
         /\ fst (ComplianceAnalysisAgent_analyze repr_str net self clause_data
                   rules w) = inr v'
         /\ fst (ComplianceAnalysisAgent_analyze repr_str net' self clause_data
                   rules w') = inr v'.
Proof.
  intros Hj Hnet Hnet'.
  destruct (fenced_reply_decodes j v Hj) as (v' & H1 & H2).
  exists v'. split; [exact H1 |].
  intros self contract_text clause_data rules w w'.
  rewrite !clause_analyze_eq, !risk_analyze_eq, !compliance_analyze_eq.
  rewrite !Hnet, !Hnet'.
  rewrite (parse_response_ok repr_str j v' H1).
  rewrite (parse_response_ok repr_str (fenced j) v' H2).
  repeat split.
Qed.

Lemma fenced_reply_same_result_witness :
  exists v',
    fst (ClauseExtractionAgent_analyze ascii_repr net_plain
           (Agent_init example_config) example_contract (World 0 [])) = inr v'
    /\ fst (ClauseExtractionAgent_analyze ascii_repr net_fenced
              (Agent_init example_config) example_contract (World 0 [])) = inr v'.
Proof.
  destruct (fenced_reply_same_result ascii_repr net_plain net_fenced
              example_reply
              (PDict [(u "甲方", PStr (u "张三"));
                      (u "价款", PList [PInt 10000; PStr (u "元")])]))
    as (v' & _ & H).
  - vm_compute. reflexivity.
  - intros n req. vm_compute. reflexivity.
  - intros n req. vm_compute. reflexivity.
  - exists v'.
    destruct (H (Agent_init example_config) example_contract (PDict []) None
                (World 0 []) (World 0 [])) as (H1 & H2 & _).
    split; [exact H1 | exact H2].
Defined.

(** C10. The fence markers are removed wherever they are: what [analyze]
    decodes has no [```] left in it, so no [```json] either.  For a reply
    that is a string literal whose characters stand for themselves and
    which has a [```] in it, the reply as it came decodes to the string,
    while the agent returns the string without its markers, which is
    another string. *)
Theorem fences_removed_everywhere (repr_str : pystr -> pystr) :
  (forall reply,
     contains FENCE (strip_fences reply) = false
     /\ contains FENCE_JSON (strip_fences reply) = false)
  /\ (forall t,
        forallb plain_char t = true -> contains FENCE t = true ->
        json_loads (quoted t) = inr (PStr t)
        /\ parse_response repr_str (PStr (quoted t)) = PStr (remove_fences t)
        /\ remove_fences t <> t).
Proof.
  split; [exact strip_fences_no_fence |].
  intros t Hp Hc. split; [now apply json_loads_quoted |]. split.
  - apply parse_response_ok. rewrite strip_fences_quoted.
    apply json_loads_quoted. now apply remove_fences_plain.
  - intro E. unfold remove_fences in E.
    pose proof (no_fence_left (replace FENCE_JSON [] t)) as H.
    rewrite E in H. congruence.
Qed.

Lemma fences_removed_everywhere_witness :
  json_loads (quoted (u "see ```json attached```")) = inr (PStr (u "see ```json attached```"))
  /\ parse_response ascii_repr (PStr (quoted (u "see ```json attached```")))
     = PStr (u "see  attached").
Proof.
  destruct (proj2 (fences_removed_everywhere ascii_repr)
              (u "see ```json attached```") eq_refl eq_refl)
    as (H1 & H2 & _).
  split; [exact H1 | exact H2].
Defined.

(** ** Further properties: the agents *)

Lemma parse_response_letter_A (repr_str : pystr -> pystr) (s : pystr) :
  parse_response repr_str (PStr (65%N :: s))
  = error_record (strip_fences (65%N :: s)).
Proof.
  unfold parse_response, parse_block, error_record.
  destruct (strip_fences_cons 65%N s) as [s' Hs']; [reflexivity | discriminate |].
  rewrite Hs'.
  destruct (json_loads_bad_start 65%N s') as [e ->].
  - discriminate.
  - now exists EXPECTING_VALUE, 0.
  - reflexivity.
Qed.

(** The reply of a failed call is one of the two error strings. *)
Lemma api_reply_failed (o : http_outcome) :
  is_failed o = true ->
  exists s, api_reply o = PStr (65%N :: s)
            /\ (startswith API_EXCEPTION (65%N :: s) = true
                \/ startswith API_FAILED (65%N :: s) = true).
Proof.
  destruct o as [r | msg]; simpl; intro H.
  - apply negb_true_iff in H. rewrite H.
    eexists. split; [reflexivity |]. right. reflexivity.
  - eexists. split; [reflexivity |]. left. reflexivity.
Qed.

(** When a call fails, by the transport or with a status that is not 200,
    each structured agent returns the record with the one key 解析错误,
    whose value holds the error string of [call_api], stripped. *)
Theorem failed_call_gives_error_record
  (repr_str : pystr -> pystr) (net : nat -> http_request -> http_outcome) :
  (forall n req, is_failed (net n req) = true) ->
  forall self contract_text clause_data rules w,
    (exists s,
       startswith (u "API调用") s = true
       /\ fst (ClauseExtractionAgent_analyze repr_str net self contract_text w)
          = inr (error_record (strip_fences s)))
    /\ (exists s,
          startswith (u "API调用") s = true
          /\ fst (RiskAnalysisAgent_analyze repr_str net self clause_data w)
             = inr (error_record (strip_fences s)))
    /\ (exists s,
          startswith (u "API调用") s = true
          /\ fst (ComplianceAnalysisAgent_analyze repr_str net self clause_data
                    rules w)
             = inr (error_record (strip_fences s))).
Proof.
  intros Hnet self contract_text clause_data rules w.
  assert (H : forall o, is_failed o = true ->
                exists s, startswith (u "API调用") s = true
                          /\ parse_response repr_str (api_reply o)
                             = error_record (strip_fences s)).
  { intros o Ho. destruct (api_reply_failed o Ho) as (s & -> & Hs).
    exists (65%N :: s). split; [| apply parse_response_letter_A].
    destruct Hs as [Hs | Hs].
    - change API_EXCEPTION with (u "API调用" ++ u "异常: ") in Hs.
      now apply startswith_prefix in Hs.
    - change API_FAILED with (u "API调用" ++ u "失败: HTTP ") in Hs.
      now apply startswith_prefix in Hs. }
  rewrite clause_analyze_eq, risk_analyze_eq, compliance_analyze_eq.
  repeat split.
  - destruct (H _ (Hnet (requests_made w)
                     (api_request self
                        (u "请分析以下合同文本并提取关键条款信息：

" ++ contract_text) CLAUSE_SYSTEM_PROMPT))) as (s & Hs & ->). eauto.
  - destruct (H _ (Hnet (requests_made w)
                     (api_request self
                        (u "请对以下合同条款进行风险量化分析：

" ++ json_dumps false (Some 2) clause_data) RISK_SYSTEM_PROMPT)))
      as (s & Hs & ->). eauto.
  - destruct (H _ (Hnet (requests_made w)
                     (api_request self
                        (u "请对以下合同条款进行合规性分析：

" ++ json_dumps false (Some 2) clause_data)
                        (compliance_system_prompt
                           match rules with
                           | None => DEFAULT_COMPLIANCE_RULES
                           | Some r => r
                           end)))) as (s & Hs & ->). eauto.
Qed.

Lemma failed_call_gives_error_record_witness :
  exists s,
    startswith (u "API调用") s = true
    /\ fst (RiskAnalysisAgent_analyze ascii_repr net_unauthorized
              (Agent_init example_config) (PDict []) (World 0 []))
       = inr (error_record (strip_fences s)).
Proof.
  exact (proj1 (proj2
           (failed_call_gives_error_record ascii_repr net_unauthorized
              (fun n req => eq_refl)
              (Agent_init example_config) example_contract (PDict []) None
              (World 0 [])))).
Defined.

Lemma agents_return_parse
  (repr_str : pystr -> pystr) (net : nat -> http_request -> http_outcome)
  (reply : pyval) :
  replies_with net reply ->
  structured_agents_return repr_str net (parse_response repr_str reply).
Proof.
  intros H self contract_text clause_data rules w.
  rewrite clause_analyze_eq, risk_analyze_eq, compliance_analyze_eq, !H.
  repeat split.
Qed.

Lemma startswith_app_r (p s b : pystr) :
  startswith p s = true -> startswith p (s ++ b) = true.
Proof.
  revert s. induction p as [| a p IH]; intros s H; [reflexivity |].
  destruct s as [| c s]; [discriminate H |].
  simpl in *. apply andb_prop in H as [-> H]. now apply IH.
Qed.

Lemma contains_app_after (p a s : pystr) :
  contains p (a ++ s) = false -> contains p s = false.
Proof.
  induction a as [| c a IH]; [trivial |].
  simpl. intro H. apply orb_false_elim in H as [_ H]. now apply IH.
Qed.

Lemma contains_app_before (p s b : pystr) :
  contains p (s ++ b) = false -> contains p s = false.
Proof.
  induction s as [| c s IH]; intro H.
  - destruct p as [| a p]; [now destruct b | reflexivity].
  - simpl in H. apply orb_false_elim in H as [H1 H2].
    simpl. rewrite (IH H2), orb_false_r.
    destruct (startswith p (c :: s)) eqn:E; [| reflexivity].
    apply (startswith_app_r p (c :: s) b) in E. simpl app in E. congruence.
Qed.

(** A text without occurrence of the pattern is left as it is. *)
Lemma replace_absent (o : N) (old' new s : pystr) :
  contains (o :: old') s = false -> replace (o :: old') new s = s.
Proof.
  induction s as [| c s IH]; intro H; [reflexivity |].
  cbn [contains] in H. apply orb_false_elim in H as [H1 H2].
  rewrite replace_nomatch by exact H1. now rewrite IH.
Qed.

Lemma remove_fences_absent (s : pystr) :
  contains FENCE s = false -> remove_fences s = s.
Proof.
  intro H. unfold remove_fences.
  assert (HJ : contains FENCE_JSON s = false).
  { destruct (contains FENCE_JSON s) eqn:E; [| reflexivity].
    change FENCE_JSON with (FENCE ++ [106; 115; 111; 110]%N) in E.
    apply contains_prefix in E. congruence. }
  unfold FENCE_JSON in *. rewrite replace_absent by exact HJ.
  unfold FENCE in *. now apply replace_absent.
Qed.

Lemma lstrip_spaces (a s : pystr) :
  forallb py_isspace a = true -> lstrip (a ++ s) = lstrip s.
Proof.
  induction a as [| c a IH]; intro H; [reflexivity |].
  simpl in H. apply andb_prop in H as [Hc Ha].
  simpl. rewrite Hc. now apply IH.
Qed.

(** White space around a text that neither starts nor ends with white
    space is what [strip] removes. *)
Lemma strip_spaces_around (a b s : pystr) (c d : N) :
  forallb py_isspace a = true -> forallb py_isspace b = true ->
  py_isspace c = false -> py_isspace d = false ->
  strip (a ++ (c :: s ++ [d]) ++ b) = c :: s ++ [d].
Proof.
  intros Ha Hb Hc Hd. unfold strip.
  rewrite lstrip_spaces by assumption.
  change ((c :: s ++ [d]) ++ b) with (c :: (s ++ [d]) ++ b).
  rewrite lstrip_nonspace by assumption.
  unfold rstrip.
  replace (rev (c :: (s ++ [d]) ++ b)) with (rev b ++ rev (c :: s ++ [d]))
    by (change (c :: (s ++ [d]) ++ b) with ((c :: s ++ [d]) ++ b);
        now rewrite rev_app_distr).
  rewrite lstrip_spaces by now rewrite forallb_rev.
  fold (rstrip (c :: s ++ [d])).
  pose proof (strip_id c d s Hc Hd) as H. unfold strip in H.
  now rewrite lstrip_nonspace in H by exact Hc.
Qed.

Lemma fenced_ends (j : pystr) :
  exists s, fenced j = 96%N :: s ++ [96%N].
Proof.
  exists ([96; 96; 106; 115; 111; 110; 10]%N ++ j ++ [10; 96; 96]%N).
  unfold fenced, FENCE_JSON, FENCE, NL. simpl. do 8 f_equal.
  now rewrite <- app_assoc.
Qed.

Lemma bare_fenced_ends (j : pystr) :
  exists s, bare_fenced j = 96%N :: s ++ [96%N].
Proof.
  exists ([96; 96; 10]%N ++ j ++ [10; 96; 96]%N).
  unfold bare_fenced, FENCE, NL. simpl. do 4 f_equal.
  now rewrite <- app_assoc.
Qed.

Lemma strip_fences_bare (j : pystr) :
  strip_fences (bare_fenced j) = NL :: remove_fences j ++ [NL].
Proof.
  assert (H1 : ~ In NL (96%N :: tl FENCE_JSON)) by (simpl; intuition discriminate).
  assert (H2 : ~ In NL (96%N :: tl FENCE)) by (simpl; intuition discriminate).
  destruct (bare_fenced_ends j) as [s Hs].
  unfold strip_fences. rewrite Hs, strip_id, <- Hs by reflexivity.
  unfold remove_fences, bare_fenced.
  rewrite (replace_sep 96 (tl FENCE_JSON) [] NL FENCE (j ++ NL :: FENCE) H1
           : replace FENCE_JSON [] (FENCE ++ [NL] ++ j ++ [NL] ++ FENCE)
             = FENCE ++ NL :: replace FENCE_JSON [] (j ++ NL :: FENCE)).
  rewrite (replace_sep 96 (tl FENCE_JSON) [] NL j FENCE H1
           : replace FENCE_JSON [] (j ++ NL :: FENCE)
             = replace FENCE_JSON [] j ++ NL :: FENCE).
  rewrite (replace_sep 96 (tl FENCE) [] NL FENCE
             (replace FENCE_JSON [] j ++ NL :: FENCE) H2
           : replace FENCE []
               (FENCE ++ NL :: replace FENCE_JSON [] j ++ NL :: FENCE)
             = NL :: replace FENCE [] (replace FENCE_JSON [] j ++ NL :: FENCE)).
  rewrite (replace_sep 96 (tl FENCE) [] NL (replace FENCE_JSON [] j) FENCE H2
           : replace FENCE [] (replace FENCE_JSON [] j ++ NL :: FENCE)
             = replace FENCE [] (replace FENCE_JSON [] j) ++ [NL]).
  reflexivity.
Qed.

Lemma strip_fences_upper (j : pystr) :
  strip_fences (upper_fenced j) = u "JSON" ++ NL :: remove_fences j ++ [NL].
Proof.
  assert (H1 : ~ In NL (96%N :: tl FENCE_JSON)) by (simpl; intuition discriminate).
  assert (H2 : ~ In NL (96%N :: tl FENCE)) by (simpl; intuition discriminate).
  assert (Hs : upper_fenced j
               = 96%N :: ([96; 96; 74; 83; 79; 78; 10]%N ++ j ++ [10; 96; 96]%N)
                      ++ [96%N]).
  { unfold upper_fenced, FENCE, NL. simpl. do 8 f_equal.
    now rewrite <- app_assoc. }
  unfold strip_fences. rewrite Hs, strip_id, <- Hs by reflexivity.
  unfold remove_fences, upper_fenced.
  rewrite (replace_sep 96 (tl FENCE_JSON) [] NL (u "```JSON") (j ++ NL :: FENCE) H1
           : replace FENCE_JSON [] (u "```JSON" ++ [NL] ++ j ++ [NL] ++ FENCE)
             = u "```JSON" ++ NL :: replace FENCE_JSON [] (j ++ NL :: FENCE)).
  rewrite (replace_sep 96 (tl FENCE_JSON) [] NL j FENCE H1
           : replace FENCE_JSON [] (j ++ NL :: FENCE)
             = replace FENCE_JSON [] j ++ NL :: FENCE).
  rewrite (replace_sep 96 (tl FENCE) [] NL (u "```JSON")
             (replace FENCE_JSON [] j ++ NL :: FENCE) H2
           : replace FENCE []
               (u "```JSON" ++ NL :: replace FENCE_JSON [] j ++ NL :: FENCE)
             = u "JSON" ++ NL :: replace FENCE [] (replace FENCE_JSON [] j ++ NL :: FENCE)).
  rewrite (replace_sep 96 (tl FENCE) [] NL (replace FENCE_JSON [] j) FENCE H2
           : replace FENCE [] (replace FENCE_JSON [] j ++ NL :: FENCE)
             = replace FENCE [] (replace FENCE_JSON [] j) ++ [NL]).
  reflexivity.
Qed.

Lemma parse_response_plain_json (repr_str : pystr -> pystr) (j : pystr) (v : pyval) :
  json_loads j = inr v -> contains FENCE j = false ->
  parse_response repr_str (PStr j) = v.
Proof.
  intros Hj Hc. apply parse_response_ok.
  destruct (json_loads_strip j v Hj) as (Hcore & a & b & Hab & _ & _).
  rewrite strip_fences_eq, remove_fences_absent; [exact Hcore |].
  rewrite Hab in Hc. apply contains_app_after in Hc.
  now apply contains_app_before in Hc.
Qed.

(** A JSON reply that has no [```] in it is returned as [json.loads]
    decodes it, by each structured agent. *)
Theorem plain_json_reply_returned
  (repr_str : pystr -> pystr) (net : nat -> http_request -> http_outcome)
  (j : pystr) (v : pyval) :
  json_loads j = inr v -> contains FENCE j = false ->
  replies_with net (PStr j) ->
  structured_agents_return repr_str net v.
Proof.
  intros Hj Hc Hnet.
  rewrite <- (parse_response_plain_json repr_str j v Hj Hc).
  now apply agents_return_parse.
Qed.

Lemma plain_json_reply_returned_witness :
  structured_agents_return ascii_repr net_plain
    (PDict [(u "甲方", PStr (u "张三"));
            (u "价款", PList [PInt 10000; PStr (u "元")])]).
Proof.
  apply (plain_json_reply_returned ascii_repr net_plain example_reply).
  - vm_compute. reflexivity.
  - vm_compute. reflexivity.
  - intros n req. vm_compute. reflexivity.
Defined.

(** A JSON reply between fences, with or without the tag [json], and with
    any white space before and after the fences, gives the value that the
    reply without fences gives; this value is what [json.loads] decodes
    when the reply has no [```] in it. *)
Theorem fenced_variants_decode_alike
  (repr_str : pystr -> pystr) (j : pystr) (v : pyval) :
  json_loads j = inr v ->
  exists v',
    parse_response repr_str (PStr j) = v'
    /\ json_loads (strip_fences j) = inr v'
    /\ (contains FENCE j = false -> v' = v)
    /\ forall a b net,
         forallb py_isspace a = true -> forallb py_isspace b = true ->
         replies_with net (PStr (a ++ fenced j ++ b))
         \/ replies_with net (PStr (a ++ bare_fenced j ++ b)) ->
         structured_agents_return repr_str net v'.
Proof.
  intro Hj.
  destruct (fenced_reply_decodes j v Hj) as (v' & H1 & H2).
  exists v'. split; [now apply parse_response_ok |].
  split; [exact H1 |]. split.
  - intro Hc.
    pose proof (parse_response_plain_json repr_str j v Hj Hc) as E.
    rewrite (parse_response_ok repr_str j v' H1) in E. exact E.
  - intros a b net Ha Hb [Hnet | Hnet].
    + replace v' with (parse_response repr_str (PStr (a ++ fenced j ++ b)));
        [now apply agents_return_parse |].
      apply parse_response_ok.
      destruct (fenced_ends j) as [s Hs].
      rewrite strip_fences_eq, Hs, strip_spaces_around by (assumption || reflexivity).
      rewrite <- Hs.
      replace (remove_fences (fenced j)) with (strip_fences (fenced j));
        [exact H2 |].
      rewrite strip_fences_eq, Hs, strip_id by reflexivity. reflexivity.
    + replace v' with (parse_response repr_str (PStr (a ++ bare_fenced j ++ b)));
        [now apply agents_return_parse |].
      apply parse_response_ok.
      destruct (bare_fenced_ends j) as [s Hs].
      rewrite strip_fences_eq, Hs, strip_spaces_around by (assumption || reflexivity).
      rewrite <- Hs.
      replace (remove_fences (bare_fenced j)) with (strip_fences (bare_fenced j)).
      * rewrite strip_fences_bare, <- strip_fences_fenced. exact H2.
      * rewrite strip_fences_eq, Hs, strip_id by reflexivity. reflexivity.
Qed.

Lemma fenced_variants_decode_alike_witness :
  structured_agents_return ascii_repr
    (net_replying (u "
" ++ bare_fenced example_reply ++ u "
"))
    (PDict [(u "甲方", PStr (u "张三"));
            (u "价款", PList [PInt 10000; PStr (u "元")])]).
Proof.
  destruct (fenced_variants_decode_alike ascii_repr example_reply
              (PDict [(u "甲方", PStr (u "张三"));
                      (u "价款", PList [PInt 10000; PStr (u "元")])]))
    as (v' & _ & _ & Hv & H).
  - vm_compute. reflexivity.
  - rewrite <- (Hv eq_refl).
    apply (H (u "
") (u "
")); [reflexivity | reflexivity |].
    right. intros n req. vm_compute. reflexivity.
Defined.

(** The tag of the fence is matched with its case: a reply between
    [```JSON] and [```] is not decoded, whatever is between the fences, and
    each structured agent returns the error record. *)
Theorem upper_case_tag_not_decoded
  (repr_str : pystr -> pystr) (net : nat -> http_request -> http_outcome)
  (j : pystr) :
  replies_with net (PStr (upper_fenced j)) ->
  structured_agents_return repr_str net
    (error_record (u "JSON" ++ NL :: remove_fences j ++ [NL])).
Proof.
  intro Hnet.
  replace (error_record (u "JSON" ++ NL :: remove_fences j ++ [NL]))
    with (parse_response repr_str (PStr (upper_fenced j)));
    [now apply agents_return_parse |].
  destruct (json_loads_bad_start 74%N
              (u "SON" ++ NL :: remove_fences j ++ [NL])) as [e He].
  - discriminate.
  - now exists EXPECTING_VALUE, 0.
  - rewrite (parse_response_error repr_str (upper_fenced j) e);
      rewrite strip_fences_upper; [reflexivity | exact He].
Qed.

Lemma upper_case_tag_not_decoded_witness :
  structured_agents_return ascii_repr
    (net_replying (upper_fenced (u "{}")))
    (error_record (u "JSON
{}
")).
Proof.
  apply (upper_case_tag_not_decoded ascii_repr
           (net_replying (upper_fenced (u "{}"))) (u "{}")).
  intros n req. vm_compute. reflexivity.
Defined.

(** ** Further properties: the run *)

(** No run notifies a failure: whatever the transport does, the run makes
    five requests, one per stage, and completes with the results of the
    five stages under their five keys, in the order of the stages. *)
Theorem run_always_completes
  (repr_str : pystr -> pystr) (net : nat -> http_request -> http_outcome)
  (api_config : APIConfig) (contract_text : pystr) :
  let w := snd (run repr_str net api_config contract_text (World 0 [])) in
  requests_made w = 5
  /\ length (filter is_http_post (log w)) = 5
  /\ (forall message, ~ In (Failure message) (log w))
  /\ exists clause risk compliance report accuracy,
       last (log w) ThreadStart
       = Complete [(KEY_CLAUSES, clause); (KEY_RISK, risk);
                   (KEY_COMPLIANCE, compliance); (KEY_REPORT, report);
                   (KEY_ACCURACY, accuracy)].
Proof.
  intro w. subst w. rewrite run_eq. cbn [snd requests_made log app].
  split; [reflexivity |]. split; [reflexivity |]. split.
  - intros message H. unfold run_events in H. simpl in H.
    repeat (destruct H as [H | H]; [discriminate H |]). exact H.
  - do 5 eexists. reflexivity.
Qed.

(** Every request of a run goes to the completions endpoint of the
    configured base URL and carries the configured key as a bearer token. *)
Theorem run_requests_endpoint_and_key
  (repr_str : pystr -> pystr) (net : nat -> http_request -> http_outcome)
  (api_config : APIConfig) (contract_text : pystr) (req : http_request) :
  In (HttpPost req) (events_of (run repr_str net api_config contract_text)) ->
  req_url req = api_base_url api_config ++ u "/chat/completions"
  /\ req_headers req
     = [(u "Content-Type", u "application/json");
        (u "Authorization", u "Bearer " ++ api_key api_config)].
Proof.
  rewrite run_events_of. unfold run_events. intro H. simpl in H.
  repeat (destruct H as [H | H];
          [first [discriminate H | injection H as <-; split; reflexivity] |]).
  destruct H.
Qed.

Lemma run_requests_endpoint_and_key_witness :
  req_url (clause_request example_config example_contract)
  = u "https://api.deepseek.com/v1/chat/completions".
Proof.
  refine (proj1 (run_requests_endpoint_and_key ascii_repr net_down
                   example_config example_contract
                   (clause_request example_config example_contract) _)).
  rewrite run_events_of. unfold run_events. simpl. tauto.
Defined.

(** With a contract text and an API key, [process_contract] disables the
    button, resets the progress bar and starts the thread, whose run makes
    its five requests and completes. *)
Theorem process_contract_starts_run
  (repr_str : pystr -> pystr) (net : nat -> http_request -> http_outcome)
  (self : ContractReviewApp) :
  app_contract_text self <> [] -> api_key (app_api_config self) <> [] ->
  let w := snd (process_contract repr_str net self (World 0 [])) in
  requests_made w = 5
  /\ log w
     = [ProcessButtonEnabled false; ProgressBarValue 0; ThreadStart]
         ++ run_events repr_str net (app_api_config self)
              (app_contract_text self) 0.
Proof.
  intros Ht Hk w. subst w. unfold process_contract.
  destruct (app_contract_text self) as [| c t] eqn:Et; [congruence |].
  destruct (api_key (app_api_config self)) as [| k ks] eqn:Ek; [congruence |].
  cbv beta iota zeta delta [bind emit requests_made log app].
  rewrite run_eq. cbn [snd requests_made log app]. split; reflexivity.
Qed.

Lemma process_contract_starts_run_witness :
  requests_made
    (snd (process_contract ascii_repr net_down
            {| app_api_config := example_config;
               app_contract_text := example_contract |} (World 0 [])))
  = 5.
Proof.
  refine (proj1 (process_contract_starts_run ascii_repr net_down
                   {| app_api_config := example_config;
                      app_contract_text := example_contract |} _ _));
    discriminate.
Defined.

Lemma is_str_inv (v : pyval) : is_str v = true -> exists s, v = PStr s.
Proof. destruct v; try discriminate. eauto. Qed.

(** The document the exporter returns for results whose report and accuracy
    check are strings. *)
Lemma exporter_document
  (repr_str : pystr -> pystr) (results : pydict) (now : datetime)
  (report accuracy : pystr) :
  dict_get_default results KEY_REPORT (PStr []) = PStr report ->
  dict_get_default results KEY_ACCURACY (PStr []) = PStr accuracy ->
  generate_combined_report repr_str results now =
  inr (TITLE ++ u "**审查日期:** " ++ strftime_report now ++ [NL; NL]
       ++ HEADING_1
       ++ render_stage repr_str (dict_get_default results KEY_CLAUSES (PDict []))
       ++ HEADING_2
       ++ render_stage repr_str (dict_get_default results KEY_RISK (PDict []))
       ++ HEADING_3
       ++ render_stage repr_str (dict_get_default results KEY_COMPLIANCE (PDict []))
       ++ HEADING_4 ++ report
       ++ HEADING_5 ++ accuracy).
Proof.
  intros Hr Ha. unfold generate_combined_report.
  rewrite Hr, Ha. cbn [str_iadd]. f_equal.
  repeat rewrite <- app_assoc. reflexivity.
Qed.

(** When every call of a run fails or gets a completion whose content is a
    string, the results the run completes with are exported: the exporter
    returns a document for them. *)
Theorem run_results_are_exported
  (repr_str : pystr -> pystr) (net : nat -> http_request -> http_outcome)
  (api_config : APIConfig) (contract_text : pystr) (now : datetime) :
  (forall n req, is_str (api_reply (net n req)) = true) ->
  exists results doc,
    last (events_of (run repr_str net api_config contract_text)) ThreadStart
    = Complete results
    /\ generate_combined_report repr_str results now = inr doc.
Proof.
  intro H. rewrite run_events_of.
  exists (final_results repr_str net api_config contract_text 0).
  assert (Hr : exists s, report_result repr_str net api_config contract_text 0
                         = PStr s).
  { apply is_str_inv. exact (H _ _). }
  assert (Ha : exists s, accuracy_result repr_str net api_config contract_text 0
                         = PStr s).
  { apply is_str_inv. exact (H _ _). }
  destruct Hr as [report Hr]. destruct Ha as [accuracy Ha].
  eexists. split; [reflexivity |].
  apply (exporter_document repr_str _ now report accuracy).
  - unfold final_results. rewrite Hr. reflexivity.
  - unfold final_results. rewrite Ha. reflexivity.
Qed.

Lemma run_results_are_exported_witness :
  exists results doc,
    last (events_of (run ascii_repr net_down example_config example_contract))
         ThreadStart = Complete results
    /\ generate_combined_report ascii_repr results example_now = inr doc.
Proof.
  apply (run_results_are_exported ascii_repr net_down example_config
           example_contract example_now).
  intros n req. reflexivity.
Defined.

(** ** Further properties: the window *)

Lemma add_items_eq (keys : list pystr) (w : window) :
  add_items keys w
  = (inr tt,
     Window (win_results w) (win_contract_text w) (win_clause_items w ++ keys)
            (win_log w ++ map ClauseListAddItem keys)).
Proof.
  revert w. induction keys as [| k keys IH]; intro w.
  - simpl. rewrite !app_nil_r. now destruct w.
  - cbn [add_items]. unfold wbind at 1. cbn [wemit].
    unfold wbind at 1. cbn [get_clause_items].
    unfold wbind at 1. cbn [set_clause_items].
    rewrite IH. cbn [win_results win_contract_text win_clause_items win_log map].
    now rewrite <- !app_assoc.
Qed.

(** When the result of clause extraction is not a mapping (the reply was a
    JSON array, string or number), [processing_finished] raises
    [AttributeError] once the list of clauses is cleared: nothing is shown,
    the save action is not enabled and the process button, disabled when
    the run started, is not enabled again. *)
Theorem processing_finished_stops_on_non_mapping
  (qt_text : pyval -> exn + pystr) (results : pydict) (w : window) :
  is_dict (dict_get_default results KEY_CLAUSES (PDict [])) = false ->
  processing_finished qt_text results w
  = (inl (no_attribute (dict_get_default results KEY_CLAUSES (PDict []))
            (u "keys")),
     Window (Some results) (win_contract_text w) []
            (win_log w ++ [ClauseListClear])).
Proof.
  intro H. unfold processing_finished.
  unfold wbind at 1. cbn [set_results].
  unfold wbind at 1. unfold update_clause_tab.
  unfold wbind at 1. cbn [get_results win_results].
  unfold wbind at 1. cbn [wemit].
  unfold wbind at 1. cbn [set_clause_items].
  unfold wbind at 1. unfold wlift.
  cbn [win_results win_contract_text win_clause_items win_log].
  destruct (dict_get_default results KEY_CLAUSES (PDict [])); try discriminate H;
    reflexivity.
Qed.

Lemma processing_finished_stops_on_non_mapping_witness :
  let results :=
    final_results ascii_repr net_array example_config example_contract 0 in
  exists e w,
    processing_finished strings_only results new_window = (inl e, w)
    /\ win_log w = [ClauseListClear].
Proof.
  intro results. do 2 eexists.
  rewrite (processing_finished_stops_on_non_mapping strings_only results
             new_window);
    [split; reflexivity |].
  vm_compute. reflexivity.
Defined.

Lemma set_text_eq (qt_text : pyval -> exn + pystr) (wd : widget) (v : pyval)
  (s : pystr) (w : window) :
  qt_text v = inr s ->
  set_text qt_text wd v w
  = (inr tt,
     Window (win_results w) (win_contract_text w) (win_clause_items w)
            (win_log w ++ [SetText wd s])).
Proof. intro H. unfold set_text, wbind, wlift. now rewrite H. Qed.

Lemma is_str_text_of (v : pyval) : is_str v = true -> v = PStr (text_of v).
Proof. destruct v; try discriminate. reflexivity. Qed.

(** When the clause result is a mapping and what is to be shown is text
    (the risk and compliance results are mappings, sequences or strings,
    the report and the accuracy check are strings, and so is the first
    clause or its JSON text), [processing_finished] fills the list with the
    clause types in the order of the mapping, shows the first clause, shows
    the four other results in their tabs, enables the save action and the
    process button, and raises nothing. *)
Theorem processing_finished_shows_results
  (qt_text : pyval -> exn + pystr) (results : pydict) (w : window)
  (d : pydict) (risk compliance report accuracy : pystr) :
  (forall s, qt_text (PStr s) = inr s) ->
  dict_get_default results KEY_CLAUSES (PDict []) = PDict d ->
  match d with [] => True | (_, v) :: _ => is_str (shown v) = true end ->
  shown (dict_get_default results KEY_RISK (PDict [])) = PStr risk ->
  shown (dict_get_default results KEY_COMPLIANCE (PDict [])) = PStr compliance ->
  dict_get_default results KEY_REPORT (PStr []) = PStr report ->
  dict_get_default results KEY_ACCURACY (PStr []) = PStr accuracy ->
  processing_finished qt_text results w
  = (inr tt,
     Window (Some results) (win_contract_text w) (map fst d)
       (win_log w ++ [ClauseListClear]
          ++ map ClauseListAddItem (map fst d)
          ++ first_clause_events d
          ++ [SetText RiskText risk; SetText ComplianceText compliance;
              SetText ReportText report; SetText AccuracyText accuracy;
              SaveActionSetEnabled true; ProcessButtonSetEnabled true;
              StatusBarMessage (u "合同审核完成");
              MessageBox Information (u "处理完成")
                (u "合同审核已完成，请查看各标签页结果")])).
Proof.
  intros Hqt Hc Hfirst Hr Hm Hp Ha.
  unfold processing_finished.
  unfold wbind at 1. cbn [set_results].
  (* update_clause_tab *)
  unfold wbind at 1. unfold update_clause_tab.
  unfold wbind at 1. cbn [get_results win_results].
  unfold wbind at 1. cbn [wemit].
  unfold wbind at 1. cbn [set_clause_items].
  unfold wbind at 1. unfold wlift. rewrite Hc. cbn [py_keys].
  unfold wbind at 1. rewrite add_items_eq.
  cbn [win_results win_contract_text win_clause_items win_log app].
  unfold wbind at 1. cbn [get_clause_items win_clause_items].
  assert (Hclause :
    forall lg,
      match map fst d with
      | [] => wret tt
      | first :: _ =>
          wbind (wemit (ClauseListSetCurrentRow 0))
                (fun _ => show_clause_content qt_text first)
      end (Window (Some results) (win_contract_text w) (map fst d) lg)
      = (inr tt,
         Window (Some results) (win_contract_text w) (map fst d)
                (lg ++ first_clause_events d))).
  { intro lg. destruct d as [| [k v] d']; cbn [map fst first_clause_events].
    - unfold wret. now rewrite app_nil_r.
    - unfold wbind at 1. cbn [wemit].
      unfold show_clause_content.
      unfold wbind at 1. cbn [get_results win_results].
      unfold wbind at 1. unfold wlift. rewrite Hc. cbn [py_get].
      unfold dict_get_default at 1. cbn [dict_get].
      rewrite pystr_eqb_refl.
      rewrite (set_text_eq qt_text ClauseContent (shown v) (text_of (shown v))).
      + cbn [win_results win_contract_text win_clause_items win_log].
        now rewrite <- app_assoc.
      + rewrite (is_str_text_of (shown v) Hfirst) at 1. apply Hqt. }
  rewrite Hclause.
  (* the four other tabs *)
  unfold wbind at 1. unfold update_risk_tab.
  unfold wbind at 1. cbn [get_results win_results].
  rewrite (set_text_eq qt_text RiskText _ risk) by (rewrite Hr; apply Hqt).
  cbn [win_results win_contract_text win_clause_items win_log].
  unfold wbind at 1. unfold update_compliance_tab.
  unfold wbind at 1. cbn [get_results win_results].
  rewrite (set_text_eq qt_text ComplianceText _ compliance)
    by (rewrite Hm; apply Hqt).
  cbn [win_results win_contract_text win_clause_items win_log].
  unfold wbind at 1. unfold update_report_tab.
  unfold wbind at 1. cbn [get_results win_results].
  rewrite (set_text_eq qt_text ReportText _ report) by (rewrite Hp; apply Hqt).
  cbn [win_results win_contract_text win_clause_items win_log].
  unfold wbind at 1. unfold update_accuracy_tab.
  unfold wbind at 1. cbn [get_results win_results].
  rewrite (set_text_eq qt_text AccuracyText _ accuracy) by (rewrite Ha; apply Hqt).
  cbn [win_results win_contract_text win_clause_items win_log].
  unfold wbind, wemit.
  cbn [win_results win_contract_text win_clause_items win_log].
  f_equal. f_equal. rewrite <- !app_assoc. reflexivity.
Qed.

Lemma processing_finished_shows_results_witness :
  exists w,
    processing_finished strings_only
      (final_results ascii_repr net_down example_config example_contract 0)
      new_window = (inr tt, w)
    /\ win_clause_items w = [ERROR_KEY].
Proof.
  eexists.
  rewrite (processing_finished_shows_results strings_only
             (final_results ascii_repr net_down example_config example_contract 0)
             new_window
             [(ERROR_KEY,
               PStr (ERROR_PREFIX ++ u "API调用异常: Connection refused"))]
             (json_dumps false (Some 2)
                (error_record (u "API调用异常: Connection refused")))
             (json_dumps false (Some 2)
                (error_record (u "API调用异常: Connection refused")))
             (u "API调用异常: Connection refused")
             (u "API调用异常: Connection refused")).
  - split; reflexivity.
  - reflexivity.
  - vm_compute. reflexivity.
  - reflexivity.
  - vm_compute. reflexivity.
  - vm_compute. reflexivity.
  - vm_compute. reflexivity.
  - vm_compute. reflexivity.
Defined.

(** Saving the report as HTML never writes a file: [markdown.markdown] is
    an attribute of a function, so the handler always ends in its [except]
    clause, with the failure box and the failure message in the status
    bar, whatever the results are. *)
Theorem save_report_html_never_writes
  (repr_str : pystr -> pystr) (file_ext : pystr -> pystr)
  (write_file : pystr -> pystr -> exn + unit)
  (file_path : pystr) (now : datetime) (w : window) (results : pydict) :
  win_results w = Some results -> file_path <> [] ->
  file_ext file_path = u ".html" ->
  exists e,
    save_report repr_str file_ext write_file file_path now w
    = (inr tt,
       Window (win_results w) (win_contract_text w) (win_clause_items w)
         (win_log w
            ++ [MessageBox Critical (u "保存失败")
                  (u "保存报告时出错: " ++ exn_str e);
                StatusBarMessage (u "保存报告失败")])).
Proof.
  intros Hres Hpath Hext. unfold save_report. rewrite Hres.
  destruct file_path as [| c p]; [congruence |].
  unfold wtry. rewrite Hext.
  unfold wbind at 1. unfold wlift at 1.
  destruct (generate_combined_report repr_str results now) as [e | doc].
  - exists e. unfold wbind, wemit.
    cbn [win_results win_contract_text win_clause_items win_log].
    rewrite ?Hres. now rewrite <- app_assoc.
  - change (pystr_eqb (u ".html") (u ".html")) with true. cbv iota.
    eexists. unfold wbind, wlift, markdown_markdown, wemit.
    cbn [win_results win_contract_text win_clause_items win_log].
    rewrite ?Hres. now rewrite <- app_assoc.
Qed.

Lemma save_report_html_never_writes_witness :
  exists e w,
    save_report ascii_repr example_ext disk_ok (u "report.HTML") example_now
      (Window (Some (final_results ascii_repr net_down example_config
                       example_contract 0)) [] [] [])
    = (inr tt, w)
    /\ win_log w
       = [MessageBox Critical (u "保存失败") (u "保存报告时出错: " ++ exn_str e);
          StatusBarMessage (u "保存报告失败")].
Proof.
  destruct (save_report_html_never_writes ascii_repr example_ext disk_ok
              (u "report.HTML") example_now
              (Window (Some (final_results ascii_repr net_down example_config
                               example_contract 0)) [] [] [])
              (final_results ascii_repr net_down example_config
                 example_contract 0))
    as [e He]; [reflexivity | discriminate | reflexivity |].
  exists e. eexists. split; [exact He | reflexivity].
Defined.

(** With another extension, when the exporter returns a document and the
    file can be written, what is written to the chosen path is the document
    of the exporter, and the success is shown. *)
Theorem save_report_writes_document
  (repr_str : pystr -> pystr) (file_ext : pystr -> pystr)
  (write_file : pystr -> pystr -> exn + unit)
  (file_path : pystr) (now : datetime) (w : window) (results : pydict)
  (doc : pystr) :
  win_results w = Some results -> file_path <> [] ->
  file_ext file_path <> u ".html" ->
  generate_combined_report repr_str results now = inr doc ->
  write_file file_path doc = inr tt ->
  save_report repr_str file_ext write_file file_path now w
  = (inr tt,
     Window (win_results w) (win_contract_text w) (win_clause_items w)
       (win_log w
          ++ [FileWritten file_path doc;
              StatusBarMessage (u "报告已保存到: " ++ file_path);
              MessageBox Information (u "保存成功")
                (u "报告已成功保存到: " ++ file_path)])).
Proof.
  intros Hres Hpath Hext Hdoc Hwrite. unfold save_report. rewrite Hres.
  destruct file_path as [| c p]; [congruence |].
  unfold wtry. unfold wbind at 1. unfold wlift at 1. rewrite Hdoc.
  destruct (pystr_eqb (file_ext (c :: p)) (u ".html")) eqn:E.
  { apply pystr_eqb_eq in E. contradiction. }
  unfold open_write, wbind, wlift, wemit. rewrite Hwrite.
  cbn [win_results win_contract_text win_clause_items win_log].
  rewrite ?Hres. now rewrite <- !app_assoc.
Qed.

Lemma save_report_writes_document_witness :
  exists doc w,
    save_report ascii_repr example_ext disk_ok (u "report.md") example_now
      (Window (Some (final_results ascii_repr net_down example_config
                       example_contract 0)) [] [] [])
    = (inr tt, w)
    /\ filter is_file_written (win_log w) = [FileWritten (u "report.md") doc].
Proof.
  destruct (generate_combined_report ascii_repr
              (final_results ascii_repr net_down example_config
                 example_contract 0) example_now) as [e | doc] eqn:Hdoc.
  { exfalso. vm_compute in Hdoc. discriminate Hdoc. }
  exists doc. eexists.
  rewrite (save_report_writes_document ascii_repr example_ext disk_ok
             (u "report.md") example_now
             (Window (Some (final_results ascii_repr net_down example_config
                              example_contract 0)) [] [] [])
             (final_results ascii_repr net_down example_config
                example_contract 0)
             doc eq_refl);
    [split; reflexivity | discriminate | vm_compute; discriminate
     | exact Hdoc | reflexivity].
Defined.

(** When the exporter raises, or the file cannot be written, nothing is
    recorded as written, and the failure is shown with the text of the
    exception. *)
Theorem save_report_failure_is_shown
  (repr_str : pystr -> pystr) (file_ext : pystr -> pystr)
  (write_file : pystr -> pystr -> exn + unit)
  (file_path : pystr) (now : datetime) (w : window) (results : pydict)
  (e : exn) :
  win_results w = Some results -> file_path <> [] ->
  generate_combined_report repr_str results now = inl e
  \/ (file_ext file_path <> u ".html"
      /\ exists doc, generate_combined_report repr_str results now = inr doc
                     /\ write_file file_path doc = inl e) ->
  save_report repr_str file_ext write_file file_path now w
  = (inr tt,
     Window (win_results w) (win_contract_text w) (win_clause_items w)
       (win_log w
          ++ [MessageBox Critical (u "保存失败")
                (u "保存报告时出错: " ++ exn_str e);
              StatusBarMessage (u "保存报告失败")])).
Proof.
  intros Hres Hpath H. unfold save_report. rewrite Hres.
  destruct file_path as [| c p]; [congruence |].
  unfold wtry. unfold wbind at 1. unfold wlift at 1.
  destruct H as [He | (Hext & doc & Hdoc & Hwrite)].
  - rewrite He. unfold wbind, wemit.
    cbn [win_results win_contract_text win_clause_items win_log].
    rewrite ?Hres. now rewrite <- app_assoc.
  - rewrite Hdoc.
    destruct (pystr_eqb (file_ext (c :: p)) (u ".html")) eqn:E.
    { apply pystr_eqb_eq in E. contradiction. }
    unfold open_write, wbind, wlift, wemit. rewrite Hwrite.
    cbn [win_results win_contract_text win_clause_items win_log].
    rewrite ?Hres. now rewrite <- app_assoc.
Qed.

Lemma save_report_failure_is_shown_witness :
  exists w,
    save_report ascii_repr example_ext disk_ok (u "report.txt") example_now
      (Window (Some (final_results ascii_repr net_null_report example_config
                       example_contract 0)) [] [] [])
    = (inr tt, w)
    /\ filter is_file_written (win_log w) = [].
Proof.
  eexists.
  rewrite (save_report_failure_is_shown ascii_repr example_ext disk_ok
             (u "report.txt") example_now
             (Window (Some (final_results ascii_repr net_null_report
                              example_config example_contract 0)) [] [] [])
             (final_results ascii_repr net_null_report example_config
                example_contract 0)
             (Exn TypeError
                (u "can only concatenate str (not " ++ [34%N] ++ u "NoneType"
                   ++ [34%N] ++ u ") to str"))
             eq_refl).
  - split; reflexivity.
  - discriminate.
  - left. vm_compute. reflexivity.
Defined.

Lemma py_join_from_strs (i : nat) (sep : pystr) (l : list pystr) :
  py_join_from i sep (map PStr l) = inr (join sep l).
Proof.
  revert i. induction l as [| s l IH]; intro i; [reflexivity |].
  destruct l as [| t l]; [reflexivity |].
  change (map PStr (s :: t :: l)) with (PStr s :: map PStr (t :: l)).
  cbn [py_join_from]. change (map PStr (t :: l)) with (PStr t :: map PStr l).
  cbv iota. change (PStr t :: map PStr l) with (map PStr (t :: l)).
  now rewrite IH.
Qed.

Lemma py_join_from_not_str (i : nat) (sep : pystr) (items : list pyval) :
  existsb (fun v => negb (is_str v)) items = true ->
  exists e, py_join_from i sep items = inl e /\ exn_cls e = TypeError.
Proof.
  revert i. induction items as [| v items IH]; intros i H; [discriminate H |].
  simpl in H. destruct v; simpl in H;
    try (eexists; split; reflexivity).
  destruct items as [| v' items]; [discriminate H |].
  destruct (IH (S i) H) as (e & He & Hc).
  exists e.
  change (py_join_from i sep (PStr s :: v' :: items))
    with (match py_join_from (S i) sep (v' :: items) with
          | inr t => inr (s ++ sep ++ t)
          | inl e' => inl e'
          end).
  rewrite He. now split.
Qed.

(** When the extension of the file is not one of [.txt], [.docx] and
    [.pdf], or when reading the file raises, the contract text of the
    window stays what it was and nothing is shown in the text area: a
    warning, or the error with the text of the exception, is all there
    is. *)
Theorem load_contract_failure_keeps_text
  (qt_text : pyval -> exn + pystr) (file_ext basename : pystr -> pystr)
  (read_text : pystr -> exn + pystr) (read_docx : pystr -> exn + list pystr)
  (read_pdf : pystr -> exn + list pyval) (file_path : pystr) (w : window) :
  let shown_window :=
    snd (load_contract qt_text file_ext basename read_text read_docx read_pdf
           file_path w) in
  (read_contract file_ext read_text read_docx read_pdf file_path = inr None ->
   win_contract_text shown_window = win_contract_text w
   /\ win_log shown_window
      = win_log w ++ [MessageBox Warning (u "文件类型错误") (u "不支持的文件类型")])
  /\ (forall e,
        read_contract file_ext read_text read_docx read_pdf file_path = inl e ->
        win_contract_text shown_window = win_contract_text w
        /\ win_log shown_window
           = win_log w
               ++ [MessageBox Critical (u "错误") (u "加载文件时出错: " ++ exn_str e);
                   StatusBarMessage (u "加载文件失败")]).
Proof.
  intro shown_window. subst shown_window. unfold load_contract, wtry, wbind, wlift.
  split.
  - intros ->. split; reflexivity.
  - intros e ->. cbn [wemit snd win_contract_text win_log].
    split; [reflexivity | now rewrite <- app_assoc].
Qed.

Lemma load_contract_failure_keeps_text_witness :
  let w := Window None example_contract [] [] in
  win_contract_text
    (snd (load_contract strings_only example_ext (fun p => p) text_file
            docx_file pdf_with_empty_page (u "contract.doc") w))
  = win_contract_text w.
Proof.
  intro w.
  assert (H : read_contract example_ext text_file docx_file
                 pdf_with_empty_page (u "contract.doc") = inr None)
    by (vm_compute; reflexivity).
  pose proof (load_contract_failure_keeps_text strings_only example_ext
                (fun p => p) text_file docx_file pdf_with_empty_page
                (u "contract.doc") w) as T.
  cbv zeta in T. destruct T as [T _]. destruct (T H) as [T1 _]. exact T1.
Defined.

(** A PDF with a page whose text is not a string (a page without text) is
    not loaded at all: joining the pages raises [TypeError], the error is
    shown and the contract text of the window stays what it was. *)
Theorem load_contract_pdf_page_without_text
  (qt_text : pyval -> exn + pystr) (file_ext basename : pystr -> pystr)
  (read_text : pystr -> exn + pystr) (read_docx : pystr -> exn + list pystr)
  (read_pdf : pystr -> exn + list pyval) (file_path : pystr) (w : window)
  (pages : list pyval) :
  file_ext file_path = u ".pdf" ->
  read_pdf file_path = inr pages ->
  existsb (fun v => negb (is_str v)) pages = true ->
  exists e,
    exn_cls e = TypeError
    /\ load_contract qt_text file_ext basename read_text read_docx read_pdf
         file_path w
       = (inr tt,
          Window (win_results w) (win_contract_text w) (win_clause_items w)
            (win_log w
               ++ [MessageBox Critical (u "错误")
                     (u "加载文件时出错: " ++ exn_str e);
                   StatusBarMessage (u "加载文件失败")])).
Proof.
  intros Hext Hpdf Hpages.
  destruct (py_join_from_not_str 0 [NL] pages Hpages) as (e & He & Hc).
  exists e. split; [exact Hc |].
  unfold load_contract, wtry, wbind, wlift, read_contract.
  rewrite Hext.
  change (pystr_eqb (u ".pdf") (u ".txt")) with false.
  change (pystr_eqb (u ".pdf") (u ".docx")) with false.
  change (pystr_eqb (u ".pdf") (u ".pdf")) with true.
  cbv iota. rewrite Hpdf. unfold py_join. rewrite He.
  unfold wemit.
  cbn [win_results win_contract_text win_clause_items win_log].
  now rewrite <- app_assoc.
Qed.

Lemma load_contract_pdf_page_without_text_witness :
  exists e w,
    load_contract strings_only example_ext (fun p => p) text_file docx_file
      pdf_with_empty_page (u "scan.PDF") (Window None example_contract [] [])
    = (inr tt, w)
    /\ exn_cls e = TypeError
    /\ win_contract_text w = example_contract.
Proof.
  destruct (load_contract_pdf_page_without_text strings_only example_ext
              (fun p => p) text_file docx_file pdf_with_empty_page
              (u "scan.PDF") (Window None example_contract [] [])
              [PStr (u "第一页"); PNone] eq_refl eq_refl eq_refl)
    as (e & Hc & H).
  exists e. eexists. split; [exact H |]. split; [exact Hc | reflexivity].
Defined.

(** A Word document is loaded as the texts of its paragraphs joined by
    newlines: this text becomes the contract text of the window and is
    shown in the text area. *)
Theorem load_contract_docx_paragraphs
  (qt_text : pyval -> exn + pystr) (file_ext basename : pystr -> pystr)
  (read_text : pystr -> exn + pystr) (read_docx : pystr -> exn + list pystr)
  (read_pdf : pystr -> exn + list pyval) (file_path : pystr) (w : window)
  (paragraphs : list pystr) :
  (forall s, qt_text (PStr s) = inr s) ->
  file_ext file_path = u ".docx" ->
  read_docx file_path = inr paragraphs ->
  load_contract qt_text file_ext basename read_text read_docx read_pdf
    file_path w
  = (inr tt,
     Window (win_results w) (join [NL] paragraphs) (win_clause_items w)
       (win_log w
          ++ [SetText ContractTextEdit (join [NL] paragraphs);
              StatusBarMessage (u "已加载合同: " ++ basename file_path)])).
Proof.
  intros Hqt Hext Hdocx.
  unfold load_contract, wtry, read_contract. rewrite Hext.
  change (pystr_eqb (u ".docx") (u ".txt")) with false.
  change (pystr_eqb (u ".docx") (u ".docx")) with true.
  cbv iota. rewrite Hdocx. unfold py_join. rewrite py_join_from_strs.
  unfold wbind at 1. unfold wlift at 1.
  unfold wbind at 1. cbn [set_contract_text].
  unfold wbind at 1.
  rewrite (set_text_eq qt_text ContractTextEdit _ (join [NL] paragraphs))
    by apply Hqt.
  unfold wemit.
  cbn [win_results win_contract_text win_clause_items win_log].
  now rewrite <- app_assoc.
Qed.

Lemma load_contract_docx_paragraphs_witness :
  win_contract_text
    (snd (load_contract strings_only example_ext (fun p => p) text_file
            docx_file pdf_with_empty_page (u "合同.docx") new_window))
  = u "甲方：张三
乙方：李四".
Proof.
  rewrite (load_contract_docx_paragraphs strings_only example_ext (fun p => p)
             text_file docx_file pdf_with_empty_page (u "合同.docx") new_window
             [u "甲方：张三"; u "乙方：李四"]);
    reflexivity.
Defined.
